(** * Structline: the input line of the structure editor

    A shallow embedding of [main.py]: the offset parser, the member-name
    helpers, the overlap scan, the validation of the input line, the commit
    of a member to the host's type database and the key handling of the
    widget, followed by the properties proved about them.

    Python [str] values are modelled as [string]; a character is a code
    point below 256 (Latin-1), which covers every character the parsing
    code distinguishes.  Python [int] values are modelled as [Z]. *)

From Stdlib Require Import ZArith Lia Ascii String List.
From stdpp Require Import base list strings.

Local Open Scope Z_scope.

(** ** The Python built-ins used by the program *)

Module Py.

Definition ord (c : ascii) : Z := Z.of_N (N_of_ascii c).

Definition chars (s : string) : list ascii := list_ascii_of_string s.
Definition str (l : list ascii) : string := string_of_list_ascii l.

(** [str.isspace] on one character, as [str.split] uses it. *)
Definition isspace (c : ascii) : bool :=
  let n := ord c in
  ((9 <=? n) && (n <=? 13)) || ((28 <=? n) && (n <=? 32))
  || (n =? 133) || (n =? 160).

(** [s.replace(old, new)] for a one-character [old]. *)
Fixpoint replace (old : ascii) (new : string) (s : string) : string :=
  match s with
  | EmptyString => EmptyString
  | String c s' =>
      if Ascii.eqb c old then new +:+ replace old new s'
      else String c (replace old new s')
  end.

(** [s.split()]: the maximal runs of characters that are not white space.
    [split_run] returns the run that starts the string and the tokens
    after it. *)
Definition push_token (tok : string) (l : list string) : list string :=
  match tok with EmptyString => l | _ => tok :: l end.

Fixpoint split_run (s : string) : string * list string :=
  match s with
  | EmptyString => (EmptyString, [])
  | String c s' =>
      let '(tok, rest) := split_run s' in
      if isspace c then (EmptyString, push_token tok rest)
      else (String c tok, rest)
  end.

Definition split (s : string) : list string :=
  let '(tok, rest) := split_run s in push_token tok rest.

(** [s.rstrip(cs)]: drops the trailing characters that occur in [cs]. *)
Definition mem (c : ascii) (cs : string) : bool :=
  existsb (Ascii.eqb c) (chars cs).

Fixpoint lstrip_chars (cs : string) (l : list ascii) : list ascii :=
  match l with
  | c :: l' => if mem c cs then lstrip_chars cs l' else l
  | [] => []
  end.

Definition rstrip (cs : string) (s : string) : string :=
  str (rev (lstrip_chars cs (rev (chars s)))).

Definition lstrip (cs : string) (s : string) : string :=
  str (lstrip_chars cs (chars s)).

(** [s.strip()]: drops white space at both ends. *)
Fixpoint lstrip_spaces (l : list ascii) : list ascii :=
  match l with
  | c :: l' => if isspace c then lstrip_spaces l' else l
  | [] => []
  end.

Definition strip (s : string) : string :=
  str (rev (lstrip_spaces (rev (lstrip_spaces (chars s))))).

(** [s.startswith(p)]. *)
Definition startswith (p s : string) : bool := String.prefix p s.

(** *** [int(s, 16)]

    The string is first normalised (a non-ASCII space becomes a blank,
    any other character from 127 on is rejected), then read as: blanks,
    an optional sign, an optional [0x] prefix with at most one
    underscore after it, hexadecimal digits with single underscores
    between them, blanks.  [None] stands for [ValueError]. *)

Definition c_isspace (c : ascii) : bool :=
  let n := ord c in ((9 <=? n) && (n <=? 13)) || (n =? 32).

Definition to_ascii_digit (c : ascii) : ascii :=
  if ord c <? 127 then c
  else if isspace c then " "%char else "?"%char.

Definition digit_value (c : ascii) : option Z :=
  let n := ord c in
  if (48 <=? n) && (n <=? 57) then Some (n - 48)
  else if (97 <=? n) && (n <=? 122) then Some (n - 97 + 10)
  else if (65 <=? n) && (n <=? 90) then Some (n - 65 + 10)
  else None.

Definition hex_value (c : ascii) : option Z :=
  match digit_value c with
  | Some d => if d <? 16 then Some d else None
  | None => None
  end.

Fixpoint skip_spaces (l : list ascii) : list ascii :=
  match l with
  | c :: l' => if c_isspace c then skip_spaces l' else l
  | [] => []
  end.

(** Scans digits and underscores.  [prev] tells whether the previous
    character was an underscore, [n] counts the characters consumed.
    The result is the value, the number of characters consumed and the
    rest, or [None] for a doubled underscore. *)
Fixpoint scan_digits (acc : Z) (prev : bool) (n : nat) (l : list ascii)
  : option (Z * bool * nat * list ascii) :=
  match l with
  | c :: l' =>
      if Ascii.eqb c "_"%char then
        if prev then None else scan_digits acc true (S n) l'
      else
        match hex_value c with
        | Some d => scan_digits (acc * 16 + d) false (S n) l'
        | None => Some (acc, prev, n, l)
        end
  | [] => Some (acc, prev, n, [])
  end.

Definition skip_prefix (l : list ascii) : list ascii :=
  match l with
  | c0 :: c1 :: l' =>
      if Ascii.eqb c0 "0"%char
         && (Ascii.eqb c1 "x"%char || Ascii.eqb c1 "X"%char)
      then match l' with
           | c2 :: l'' => if Ascii.eqb c2 "_"%char then l'' else l'
           | [] => l'
           end
      else l
  | _ => l
  end.

Definition read_sign (l : list ascii) : Z * list ascii :=
  match l with
  | c :: l' =>
      if Ascii.eqb c "+"%char then (1, l')
      else if Ascii.eqb c "-"%char then (-1, l')
      else (1, l)
  | [] => (1, l)
  end.

(** The digits up to the end: no underscore first or last, at least
    one character, and only blanks after them. *)
Definition read_digits (l : list ascii) : option Z :=
  match l with
  | c :: _ =>
      if Ascii.eqb c "_"%char then None else
      match scan_digits 0 false 0%nat l with
      | Some (v, prev, n, rest) =>
          if prev then None
          else if Nat.eqb n 0 then None
          else match skip_spaces rest with
               | [] => Some v
               | _ => None
               end
      | None => None
      end
  | [] => None
  end.

Definition int16 (s : string) : option Z :=
  let l := skip_spaces (map to_ascii_digit (chars s)) in
  let '(sign, l) := read_sign l in
  let l := skip_prefix l in
  match read_digits l with
  | Some v => Some (sign * v)
  | None => None
  end.

(** *** Number formatting *)

Definition hex_digit (d : Z) : ascii :=
  if d <? 10 then ascii_of_N (Z.to_N (48 + d))
  else ascii_of_N (Z.to_N (65 + d - 10)).

Definition dec_digit (d : Z) : ascii := ascii_of_N (Z.to_N (48 + d)).

(** Digits of a non-negative number in base [b], most significant
    first; [fuel] bounds the number of digits. *)
Fixpoint digits_go (digit : Z -> ascii) (b : Z) (fuel : nat) (n : Z)
    (acc : list ascii) : list ascii :=
  match fuel with
  | O => acc
  | S fuel' =>
      let acc' := digit (n mod b) :: acc in
      if n / b =? 0 then acc' else digits_go digit b fuel' (n / b) acc'
  end.

Definition digits (digit : Z -> ascii) (b : Z) (n : Z) : list ascii :=
  digits_go digit b (S (Z.to_nat (Z.log2 n))) n [].

Definition sign_of (n : Z) : list ascii :=
  if n <? 0 then ["-"%char] else [].

(** ["{:X}".format(n)] *)
Definition format_X (n : Z) : string :=
  str (sign_of n ++ digits hex_digit 16 (Z.abs n)).

(** ["{}".format(n)] and [str(n)] *)
Definition format_d (n : Z) : string :=
  str (sign_of n ++ digits dec_digit 10 (Z.abs n)).

(** ["{:08X}".format(n)]: zeros are inserted after the sign up to a
    width of eight characters. *)
Definition format_08X (n : Z) : string :=
  let ds := digits hex_digit 16 (Z.abs n) in
  let sg := sign_of n in
  str (sg ++ repeat "0"%char (8 - length sg - length ds) ++ ds).

(** [sep.join(l)] *)
Fixpoint join (sep : string) (l : list string) : string :=
  match l with
  | [] => EmptyString
  | [x] => x
  | x :: l' => x +:+ sep +:+ join sep l'
  end.

(** [range(n)] *)
Definition range (n : Z) : list Z := map Z.of_nat (seq 0 (Z.to_nat n)).

(** [l[i]] with Python's negative indices; [None] stands for
    [IndexError]. *)
Definition getitem {A} (l : list A) (i : Z) : option A :=
  let n := Z.of_nat (length l) in
  if (0 <=? i) && (i <? n) then l !! Z.to_nat i
  else if (- n <=? i) && (i <? 0) then l !! Z.to_nat (n + i)
  else None.

(** [l[i] = x] *)
Definition setitem {A} (l : list A) (i : Z) (x : A) : option (list A) :=
  let n := Z.of_nat (length l) in
  if (0 <=? i) && (i <? n) then Some (<[Z.to_nat i := x]> l)
  else if (- n <=? i) && (i <? 0) then Some (<[Z.to_nat (n + i) := x]> l)
  else None.

End Py.

(** ** Module-level functions of [main.py] *)

Definition parseOffset (arg : string) : option Z :=
  Py.int16 (fold_left (fun a suffix => Py.rstrip suffix a) ["h"; "LL"; "u"] arg).

Definition isValidMemberName_tail (c : ascii) : bool :=
  let n := Py.ord c in
  ((97 <=? n) && (n <=? 122)) || ((65 <=? n) && (n <=? 90))
  || ((48 <=? n) && (n <=? 57)) || (n =? 95).

Definition isValidMemberName_head (c : ascii) : bool :=
  let n := Py.ord c in
  ((97 <=? n) && (n <=? 122)) || ((65 <=? n) && (n <=? 90)) || (n =? 95).

(** The rest of a [re.match] of [[a-zA-Z0-9_]*$]: the star takes every
    character of the class, and [$] accepts the end of the string or a
    single line feed that ends it. *)
Fixpoint match_star_dollar (s : string) : bool :=
  match s with
  | EmptyString => true
  | String c s' =>
      if isValidMemberName_tail c then match_star_dollar s'
      else (Py.ord c =? 10) && (match s' with EmptyString => true | _ => false end)
  end.

Definition isValidMemberName (name : string) : bool :=
  match name with
  | String c s' => isValidMemberName_head c && match_star_dollar s'
  | EmptyString => false
  end.

(** ** The host

    The structure and type database of the disassembler is outside the
    program.  It is a state [H] with the queries and the updates the
    program calls; [tinfo] is the host's type object. *)

Class Host (H tinfo : Type) := {
  idc_BADADDR : Z;
  idc_get_struc_id : H -> string -> Z;
  idc_get_member_name : H -> Z -> Z -> option string;
  idc_get_member_offset : H -> Z -> string -> Z;
  idc_add_struc : H -> Z -> string -> Z -> Z * H;
  idc_del_struc_member : H -> Z -> Z -> H;
  idc_expand_struc : H -> Z -> Z -> Z -> H;
  tinfo_parse : H -> string -> tinfo;
  tinfo_str : tinfo -> string;
  tinfo_get_size : tinfo -> Z;
  tinfo_add_udm : H -> tinfo -> string -> tinfo -> Z -> H;
  get_cursor_pointed_type : H -> string;
}.

(** The updates the program asks of the host, in the order of the calls. *)
Inductive HostCall (tinfo : Type) :=
| Call_add_struc (idx : Z) (name : string) (is_union : Z)
| Call_del_struc_member (sid off : Z)
| Call_add_udm (tif : tinfo) (name : string) (type : tinfo) (bit_offset : Z)
| Call_expand_struc (sid off delta : Z).

Arguments Call_add_struc {tinfo}.
Arguments Call_del_struc_member {tinfo}.
Arguments Call_add_udm {tinfo}.
Arguments Call_expand_struc {tinfo}.

(** ** Results of code that can raise or loop *)

Inductive exn := IndexError | Exception (msg : string).

Inductive outcome (A : Type) :=
| Ok (a : A)
| Raise (e : exn)
| OutOfFuel.

Arguments Ok {A}.
Arguments Raise {A}.
Arguments OutOfFuel {A}.

#[global] Instance outcome_ret : MRet outcome := fun A a => Ok a.
#[global] Instance outcome_bind : MBind outcome := fun A B f m =>
  match m with
  | Ok a => f a
  | Raise e => Raise e
  | OutOfFuel => OutOfFuel
  end.

Definition or_raise {A} (e : exn) (o : option A) : outcome A :=
  match o with Some a => Ok a | None => Raise e end.

(** ** [InputStatus] and [Styles] *)

Inductive InputStatus := INVALID | VALID | ALERT_MEMBER | ALERT_STRUCT.

(** The values of the [IntEnum]. *)
Definition InputStatus_value (s : InputStatus) : Z :=
  match s with
  | INVALID => 0
  | VALID => 1
  | ALERT_MEMBER => 2
  | ALERT_STRUCT => 3
  end.

Coercion InputStatus_value : InputStatus >-> Z.

Module Styles.
Definition _style (color : string) : string :=
  "border: 2px solid " +:+ color +:+ ";".
Definition INVALID := _style "orangered".
Definition VALID := _style "lawngreen".
Definition ALERT_MEMBER := _style "gold".
Definition ALERT_STRUCT := _style "deepskyblue".
Definition HINT (off : Z) (name : string) : string :=
  "<span style='color:#808080;'>" +:+ Py.format_08X off
  +:+ "</span>    <span style='color:#8082F7'>" +:+ name +:+ "</span>".
End Styles.

Definition style_of (s : InputStatus) : string :=
  match s with
  | INVALID => Styles.INVALID
  | VALID => Styles.VALID
  | ALERT_MEMBER => Styles.ALERT_MEMBER
  | ALERT_STRUCT => Styles.ALERT_STRUCT
  end.

Definition inb (x : string) (l : list string) : bool :=
  existsb (String.eqb x) l.

Section Program.

Context {H tinfo : Type} `{!Host H tinfo}.

(** *** [addSuffixIfTaken]

    The [while] loop runs on [fuel]: one unit for each test of its
    condition. *)
Fixpoint addSuffixIfTaken_loop (fuel : nat) (h : H) (struc_id : Z)
    (mem_name : string) (i : Z) : outcome string :=
  match fuel with
  | O => OutOfFuel
  | S fuel' =>
      if negb (idc_get_member_offset h struc_id mem_name =? -1) then
        addSuffixIfTaken_loop fuel' h struc_id
          (mem_name +:+ "_" +:+ Py.format_d i) (i + 1)
      else Ok mem_name
  end.

Definition addSuffixIfTaken (fuel : nat) (h : H) (struc_id : Z)
    (mem_name : string) : outcome string :=
  addSuffixIfTaken_loop fuel h struc_id mem_name 1.

Definition getType (h : H) (type_name : string) : tinfo :=
  tinfo_parse h type_name.

Definition isTypeValid (h : H) (type_name : string) : bool :=
  0 <? Z.of_nat (String.length (tinfo_str (getType h type_name))).

(** *** [getOverlappedMemberNames]

    The loop state is [names], [added_names] and [got_roff]. *)
Definition overlap_step (h : H) (struc_id off : Z)
    (st : list (Z * string) * list string * bool) (i : Z)
  : list (Z * string) * list string * bool :=
  let '(names, added_names, got_roff) := st in
  match idc_get_member_name h struc_id (off + i) with
  | Some name =>
      if negb (String.eqb name "") && negb (inb name added_names)
         && negb (Py.startswith "gap" name)
      then
        let roff :=
          if negb got_roff then idc_get_member_offset h struc_id name
          else off + i in
        (names ++ [(roff, name)], added_names ++ [name], true)
      else st
  | None => st
  end.

Definition getOverlappedMemberNames (h : H) (struc_name : string)
    (off size : Z) : list (Z * string) :=
  let struc_id := idc_get_struc_id h struc_name in
  (fold_left (overlap_step h struc_id off) (Py.range size) ([], [], false)).1.1.

(** *** The widget

    [SQWidget] holds the attributes of the Python object and the parts
    of the Qt child widgets the program reads or writes: the text, the
    style sheet and the completer's word list of [inputField], the text
    and the visibility of [hint], and whether the window was closed.
    [historyLines] is the list object that [self.historyLines] and
    [self.history.currHistory] share; [history_currHistory] is the list
    [cleanHistory] binds to [self.history.currHistory], and
    [history_saved] the list [saveHistory] stored for this database. *)
Record SQWidget := mkSQWidget {
  structNames : list string;
  typeNames : list string;
  historyLines : list string;
  historyIdx : Z;
  status : Z;
  inputField_text : string;
  inputField_styleSheet : string;
  completer_model : list string;
  structName : string;
  memberOff : Z;
  memberType : string;
  memberName : string;
  overlapsMembers : bool;
  hint_text : string;
  hint_shown : bool;
  closed : bool;
  history_currHistory : list string;
  history_saved : option (list string)
}.

Definition set_historyLines (v : list string) (w : SQWidget) : SQWidget :=
  {| structNames := structNames w;
     typeNames := typeNames w;
     historyLines := v;
     historyIdx := historyIdx w;
     status := status w;
     inputField_text := inputField_text w;
     inputField_styleSheet := inputField_styleSheet w;
     completer_model := completer_model w;
     structName := structName w;
     memberOff := memberOff w;
     memberType := memberType w;
     memberName := memberName w;
     overlapsMembers := overlapsMembers w;
     hint_text := hint_text w;
     hint_shown := hint_shown w;
     closed := closed w;
     history_currHistory := history_currHistory w;
     history_saved := history_saved w |}.

Definition set_historyIdx (v : Z) (w : SQWidget) : SQWidget :=
  {| structNames := structNames w;
     typeNames := typeNames w;
     historyLines := historyLines w;
     historyIdx := v;
     status := status w;
     inputField_text := inputField_text w;
     inputField_styleSheet := inputField_styleSheet w;
     completer_model := completer_model w;
     structName := structName w;
     memberOff := memberOff w;
     memberType := memberType w;
     memberName := memberName w;
     overlapsMembers := overlapsMembers w;
     hint_text := hint_text w;
     hint_shown := hint_shown w;
     closed := closed w;
     history_currHistory := history_currHistory w;
     history_saved := history_saved w |}.

Definition set_status (v : Z) (w : SQWidget) : SQWidget :=
  {| structNames := structNames w;
     typeNames := typeNames w;
     historyLines := historyLines w;
     historyIdx := historyIdx w;
     status := v;
     inputField_text := inputField_text w;
     inputField_styleSheet := inputField_styleSheet w;
     completer_model := completer_model w;
     structName := structName w;
     memberOff := memberOff w;
     memberType := memberType w;
     memberName := memberName w;
     overlapsMembers := overlapsMembers w;
     hint_text := hint_text w;
     hint_shown := hint_shown w;
     closed := closed w;
     history_currHistory := history_currHistory w;
     history_saved := history_saved w |}.

Definition set_inputField_text (v : string) (w : SQWidget) : SQWidget :=
  {| structNames := structNames w;
     typeNames := typeNames w;
     historyLines := historyLines w;
     historyIdx := historyIdx w;
     status := status w;
     inputField_text := v;
     inputField_styleSheet := inputField_styleSheet w;
     completer_model := completer_model w;
     structName := structName w;
     memberOff := memberOff w;
     memberType := memberType w;
     memberName := memberName w;
     overlapsMembers := overlapsMembers w;
     hint_text := hint_text w;
     hint_shown := hint_shown w;
     closed := closed w;
     history_currHistory := history_currHistory w;
     history_saved := history_saved w |}.

Definition set_inputField_styleSheet (v : string) (w : SQWidget) : SQWidget :=
  {| structNames := structNames w;
     typeNames := typeNames w;
     historyLines := historyLines w;
     historyIdx := historyIdx w;
     status := status w;
     inputField_text := inputField_text w;
     inputField_styleSheet := v;
     completer_model := completer_model w;
     structName := structName w;
     memberOff := memberOff w;
     memberType := memberType w;
     memberName := memberName w;
     overlapsMembers := overlapsMembers w;
     hint_text := hint_text w;
     hint_shown := hint_shown w;
     closed := closed w;
     history_currHistory := history_currHistory w;
     history_saved := history_saved w |}.

Definition set_completer_model (v : list string) (w : SQWidget) : SQWidget :=
  {| structNames := structNames w;
     typeNames := typeNames w;
     historyLines := historyLines w;
     historyIdx := historyIdx w;
     status := status w;
     inputField_text := inputField_text w;
     inputField_styleSheet := inputField_styleSheet w;
     completer_model := v;
     structName := structName w;
     memberOff := memberOff w;
     memberType := memberType w;
     memberName := memberName w;
     overlapsMembers := overlapsMembers w;
     hint_text := hint_text w;
     hint_shown := hint_shown w;
     closed := closed w;
     history_currHistory := history_currHistory w;
     history_saved := history_saved w |}.

Definition set_structName (v : string) (w : SQWidget) : SQWidget :=
  {| structNames := structNames w;
     typeNames := typeNames w;
     historyLines := historyLines w;
     historyIdx := historyIdx w;
     status := status w;
     inputField_text := inputField_text w;
     inputField_styleSheet := inputField_styleSheet w;
     completer_model := completer_model w;
     structName := v;
     memberOff := memberOff w;
     memberType := memberType w;
     memberName := memberName w;
     overlapsMembers := overlapsMembers w;
     hint_text := hint_text w;
     hint_shown := hint_shown w;
     closed := closed w;
     history_currHistory := history_currHistory w;
     history_saved := history_saved w |}.

Definition set_memberOff (v : Z) (w : SQWidget) : SQWidget :=
  {| structNames := structNames w;
     typeNames := typeNames w;
     historyLines := historyLines w;
     historyIdx := historyIdx w;
     status := status w;
     inputField_text := inputField_text w;
     inputField_styleSheet := inputField_styleSheet w;
     completer_model := completer_model w;
     structName := structName w;
     memberOff := v;
     memberType := memberType w;
     memberName := memberName w;
     overlapsMembers := overlapsMembers w;
     hint_text := hint_text w;
     hint_shown := hint_shown w;
     closed := closed w;
     history_currHistory := history_currHistory w;
     history_saved := history_saved w |}.

Definition set_memberType (v : string) (w : SQWidget) : SQWidget :=
  {| structNames := structNames w;
     typeNames := typeNames w;
     historyLines := historyLines w;
     historyIdx := historyIdx w;
     status := status w;
     inputField_text := inputField_text w;
     inputField_styleSheet := inputField_styleSheet w;
     completer_model := completer_model w;
     structName := structName w;
     memberOff := memberOff w;
     memberType := v;
     memberName := memberName w;
     overlapsMembers := overlapsMembers w;
     hint_text := hint_text w;
     hint_shown := hint_shown w;
     closed := closed w;
     history_currHistory := history_currHistory w;
     history_saved := history_saved w |}.

Definition set_memberName (v : string) (w : SQWidget) : SQWidget :=
  {| structNames := structNames w;
     typeNames := typeNames w;
     historyLines := historyLines w;
     historyIdx := historyIdx w;
     status := status w;
     inputField_text := inputField_text w;
     inputField_styleSheet := inputField_styleSheet w;
     completer_model := completer_model w;
     structName := structName w;
     memberOff := memberOff w;
     memberType := memberType w;
     memberName := v;
     overlapsMembers := overlapsMembers w;
     hint_text := hint_text w;
     hint_shown := hint_shown w;
     closed := closed w;
     history_currHistory := history_currHistory w;
     history_saved := history_saved w |}.

Definition set_overlapsMembers (v : bool) (w : SQWidget) : SQWidget :=
  {| structNames := structNames w;
     typeNames := typeNames w;
     historyLines := historyLines w;
     historyIdx := historyIdx w;
     status := status w;
     inputField_text := inputField_text w;
     inputField_styleSheet := inputField_styleSheet w;
     completer_model := completer_model w;
     structName := structName w;
     memberOff := memberOff w;
     memberType := memberType w;
     memberName := memberName w;
     overlapsMembers := v;
     hint_text := hint_text w;
     hint_shown := hint_shown w;
     closed := closed w;
     history_currHistory := history_currHistory w;
     history_saved := history_saved w |}.

Definition set_hint_text (v : string) (w : SQWidget) : SQWidget :=
  {| structNames := structNames w;
     typeNames := typeNames w;
     historyLines := historyLines w;
     historyIdx := historyIdx w;
     status := status w;
     inputField_text := inputField_text w;
     inputField_styleSheet := inputField_styleSheet w;
     completer_model := completer_model w;
     structName := structName w;
     memberOff := memberOff w;
     memberType := memberType w;
     memberName := memberName w;
     overlapsMembers := overlapsMembers w;
     hint_text := v;
     hint_shown := hint_shown w;
     closed := closed w;
     history_currHistory := history_currHistory w;
     history_saved := history_saved w |}.

Definition set_hint_shown (v : bool) (w : SQWidget) : SQWidget :=
  {| structNames := structNames w;
     typeNames := typeNames w;
     historyLines := historyLines w;
     historyIdx := historyIdx w;
     status := status w;
     inputField_text := inputField_text w;
     inputField_styleSheet := inputField_styleSheet w;
     completer_model := completer_model w;
     structName := structName w;
     memberOff := memberOff w;
     memberType := memberType w;
     memberName := memberName w;
     overlapsMembers := overlapsMembers w;
     hint_text := hint_text w;
     hint_shown := v;
     closed := closed w;
     history_currHistory := history_currHistory w;
     history_saved := history_saved w |}.

Definition set_closed (v : bool) (w : SQWidget) : SQWidget :=
  {| structNames := structNames w;
     typeNames := typeNames w;
     historyLines := historyLines w;
     historyIdx := historyIdx w;
     status := status w;
     inputField_text := inputField_text w;
     inputField_styleSheet := inputField_styleSheet w;
     completer_model := completer_model w;
     structName := structName w;
     memberOff := memberOff w;
     memberType := memberType w;
     memberName := memberName w;
     overlapsMembers := overlapsMembers w;
     hint_text := hint_text w;
     hint_shown := hint_shown w;
     closed := v;
     history_currHistory := history_currHistory w;
     history_saved := history_saved w |}.

Definition set_history_currHistory (v : list string) (w : SQWidget) : SQWidget :=
  {| structNames := structNames w;
     typeNames := typeNames w;
     historyLines := historyLines w;
     historyIdx := historyIdx w;
     status := status w;
     inputField_text := inputField_text w;
     inputField_styleSheet := inputField_styleSheet w;
     completer_model := completer_model w;
     structName := structName w;
     memberOff := memberOff w;
     memberType := memberType w;
     memberName := memberName w;
     overlapsMembers := overlapsMembers w;
     hint_text := hint_text w;
     hint_shown := hint_shown w;
     closed := closed w;
     history_currHistory := v;
     history_saved := history_saved w |}.

Definition set_history_saved (v : option (list string)) (w : SQWidget) : SQWidget :=
  {| structNames := structNames w;
     typeNames := typeNames w;
     historyLines := historyLines w;
     historyIdx := historyIdx w;
     status := status w;
     inputField_text := inputField_text w;
     inputField_styleSheet := inputField_styleSheet w;
     completer_model := completer_model w;
     structName := structName w;
     memberOff := memberOff w;
     memberType := memberType w;
     memberName := memberName w;
     overlapsMembers := overlapsMembers w;
     hint_text := hint_text w;
     hint_shown := hint_shown w;
     closed := closed w;
     history_currHistory := history_currHistory w;
     history_saved := v |}.

(** *** The environment of the widget

    [db] is the host's database, [LSTRUC_name] the attribute [name] of
    the singleton [_LSTRUC] ([None] or a string), [calls] the updates
    asked of the host so far and [stdout] the lines printed. *)
Record Env := mkEnv {
  db : H;
  LSTRUC_name : option string;
  calls : list (HostCall tinfo);
  stdout : list string
}.

Definition set_LSTRUC_name (v : option string) (e : Env) : Env :=
  {| db := db e; LSTRUC_name := v; calls := calls e; stdout := stdout e |}.

Definition print (line : string) (e : Env) : Env :=
  {| db := db e; LSTRUC_name := LSTRUC_name e; calls := calls e;
     stdout := stdout e ++ [line] |}.

(** An update of the host: the new database and the record of the call. *)
Definition host_call (c : HostCall tinfo) (h' : H) (e : Env) : Env :=
  {| db := h'; LSTRUC_name := LSTRUC_name e; calls := calls e ++ [c];
     stdout := stdout e |}.

Definition BADADDR : Z := idc_BADADDR (H := H).

(** *** Helpers that read the cursor *)

Definition getCursorPointedType (e : Env) : string :=
  get_cursor_pointed_type (db e).

Definition tryCursorAsStruct (e : Env) : string :=
  let name := getCursorPointedType e in
  if negb (String.eqb name "") then
    if negb (idc_get_struc_id (db e) name =? BADADDR) then name else ""
  else "".

Definition tryCursorAsOffset (e : Env) : string :=
  let hl := getCursorPointedType e in
  if negb (String.eqb hl "") then
    match parseOffset hl with
    | Some _ => Py.strip (Py.lstrip "0" hl)
    | None => ""
    end
  else "".

(** *** [SQWidget] methods *)

Definition getTypeCompletion (w : SQWidget) (tokens : list string)
  : outcome (list string) :=
  let ctext := Py.join " " (take 2 tokens) +:+ " " in
  candidates ←
    match typeNames w with
    | [] => Ok []
    | _ =>
        t2 ← or_raise IndexError (tokens !! 2%nat);
        Ok (filter (fun type_name => Is_true (Py.startswith t2 type_name))
                   (typeNames w))
    end;
  Ok (map (fun cand => ctext +:+ cand) candidates).

Definition setCompleterWords (tokens : list string) (w : SQWidget)
  : outcome SQWidget :=
  let ntokens := Z.of_nat (length tokens) in
  if ntokens =? 2 then Ok (set_completer_model (structNames w) w)
  else if ntokens =? 3 then
    words ← getTypeCompletion w tokens;
    Ok (set_completer_model words w)
  else Ok w.

Definition hint_lines (overlapped : list (Z * string)) : string :=
  Py.join "<br>" (map (fun var => Styles.HINT var.1 var.2) overlapped).

Definition validateParseInput (e : Env) (w : SQWidget)
  : outcome (Env * SQWidget) :=
  let w := set_status INVALID w in
  let w := set_overlapsMembers false w in
  let text := inputField_text w in
  let tokens := Py.split (Py.replace "," "" text) in
  let ntokens := Z.of_nat (length tokens) in
  if negb ((1 <=? ntokens) && (ntokens <=? 4)) then Ok (e, w) else
  tok0 ← or_raise IndexError (tokens !! 0%nat);
  let struc_id := idc_get_struc_id (db e) tok0 in
  let new_struct := struc_id =? BADADDR in
  let e := if negb new_struct then set_LSTRUC_name (Some tok0) e else e in
  match tokens !! 1%nat ≫= parseOffset with
  | None => Ok (e, w)
  | Some mem_off =>
      let w :=
        if negb new_struct then
          let mem_name := idc_get_member_name (db e) struc_id mem_off in
          set_overlapsMembers
            (match mem_name with
             | Some n => negb (Py.startswith "gap" n)
             | None => false
             end) w
        else w in
      let w := set_status VALID w in
      w ← setCompleterWords tokens w;
      let w := if new_struct then set_status ALERT_STRUCT w else w in
      '(w, has_valid_type) ←
        (if ntokens =? 2 then Ok (set_memberType "_BYTE" w, true)
         else
           t2 ← or_raise IndexError (tokens !! 2%nat);
           if negb (isTypeValid (db e) t2)
           then Ok (set_status INVALID w, false)
           else Ok (set_memberType t2 w, true));
      let w :=
        if has_valid_type : bool then
          let overlapped :=
            getOverlappedMemberNames (db e) tok0 mem_off
              (tinfo_get_size (getType (db e) (memberType w))) in
          match overlapped with
          | [] => w
          | _ =>
              let w := set_status ALERT_MEMBER w in
              let w := set_hint_text (hint_lines overlapped) w in
              set_overlapsMembers true w
          end
        else w in
      w ←
        (if ntokens =? 4 then
           t3 ← or_raise IndexError (tokens !! 3%nat);
           if isValidMemberName t3 then Ok (set_memberName t3 w)
           else Ok (set_status INVALID w)
         else Ok (set_memberName ("field_" +:+ Py.format_X mem_off) w));
      let w := set_structName tok0 w in
      let w := set_memberOff mem_off w in
      Ok (e, w)
  end.

(** The timers of [showHint] are not modelled: the hint is shown. *)
Definition hideHint (w : SQWidget) : SQWidget := set_hint_shown false w.
Definition showHint (w : SQWidget) : SQWidget := set_hint_shown true w.

Definition inputTextChanged (e : Env) (w : SQWidget)
  : outcome (Env * SQWidget) :=
  '(e, w) ← validateParseInput e w;
  let w := if overlapsMembers w then showHint w else hideHint w in
  if status w =? INVALID then Ok (e, set_inputField_styleSheet Styles.INVALID w)
  else if status w =? VALID then Ok (e, set_inputField_styleSheet Styles.VALID w)
  else if status w =? ALERT_MEMBER then
    Ok (e, set_inputField_styleSheet Styles.ALERT_MEMBER w)
  else if status w =? ALERT_STRUCT then
    Ok (e, set_inputField_styleSheet Styles.ALERT_STRUCT w)
  else Raise (Exception "inputTextChanged(): unknown InputStatus").

(** [inputField.setText(t)]: the line edit stores the text and, when it
    differs from the old one, emits [textChanged], which is connected
    to [inputTextChanged]. *)
Definition setText (t : string) (e : Env) (w : SQWidget)
  : outcome (Env * SQWidget) :=
  if String.eqb t (inputField_text w) then Ok (e, w)
  else inputTextChanged e (set_inputField_text t w).

Definition logStructAdded (mem_name : string) (e : Env) (w : SQWidget) : Env :=
  print ("Added " +:+ tinfo_str (getType (db e) (memberType w)) +:+ " "
         +:+ mem_name +:+ " @ 0x" +:+ Py.format_X (memberOff w)
         +:+ " for " +:+ structName w) e.

Definition del_members (struc_id off : Z) (e : Env) (i : Z) : Env :=
  host_call (Call_del_struc_member struc_id (off + i))
            (idc_del_struc_member (db e) struc_id (off + i)) e.

Definition _addStrucMember (fuel : nat) (e : Env) (w : SQWidget)
  : outcome Env :=
  let e := set_LSTRUC_name (Some (structName w)) e in
  let struc_id := idc_get_struc_id (db e) (structName w) in
  let '(struc_id, e) :=
    if struc_id =? BADADDR then
      let '(sid, h') := idc_add_struc (db e) (-1) (structName w) 0 in
      (sid, host_call (Call_add_struc (-1) (structName w) 0) h' e)
    else
      (struc_id,
       fold_left (del_members struc_id (memberOff w))
         (Py.range (tinfo_get_size (getType (db e) (memberType w)))) e) in
  mem_name ← addSuffixIfTaken fuel (db e) struc_id (memberName w);
  let mem_type := getType (db e) (memberType w) in
  let tif := getType (db e) (structName w) in
  let struc_size := tinfo_get_size tif in
  let e :=
    if struc_size <? memberOff w then
      let e := host_call (Call_add_udm tif mem_name mem_type (struc_size * 8))
                 (tinfo_add_udm (db e) tif mem_name mem_type (struc_size * 8)) e in
      host_call (Call_expand_struc struc_id struc_size (memberOff w - struc_size))
        (idc_expand_struc (db e) struc_id struc_size (memberOff w - struc_size)) e
    else
      host_call (Call_add_udm tif mem_name mem_type (memberOff w * 8))
        (tinfo_add_udm (db e) tif mem_name mem_type (memberOff w * 8)) e in
  Ok (logStructAdded mem_name e w).

(** [addStrucMember] registers the commit action and asks the host to
    run it; the host calls [_addStrucMember] back. *)
Definition addStrucMember (fuel : nat) (e : Env) (w : SQWidget)
  : outcome Env :=
  _addStrucMember fuel e w.

(** [History.cleanHistory] and [History.saveHistory], on the list that
    the widget shares with its [History] object.  The file on disk is
    not modelled. *)
Definition cleanHistory (currHistory : list string) : list string :=
  fold_left
    (fun history ln =>
       if Nat.eqb (length history) 0 || negb (inb ln history)
       then history ++ [ln] else history)
    currHistory [].

Definition saveHistory (w : SQWidget) : SQWidget :=
  let w := set_history_currHistory (cleanHistory (historyLines w)) w in
  if Nat.eqb (length (history_currHistory w)) 0 then w
  else set_history_saved (Some (history_currHistory w)) w.

Definition close (w : SQWidget) : SQWidget :=
  let w := set_hint_shown false w in
  let w := set_closed true w in
  saveHistory w.

Inductive Key := Key_Return | Key_Tab | Key_Up | Key_Down | Key_other.

Inductive QEvent := KeyPress (key : Key) | OtherEvent.

Definition eventFilter (fuel : nat) (e : Env) (w : SQWidget) (event : QEvent)
  : outcome (bool * Env * SQWidget) :=
  match event with
  | KeyPress Key_Return =>
      if negb (status w =? INVALID) then
        e ← addStrucMember fuel e w;
        hl ← or_raise IndexError
               (Py.setitem (historyLines w) 0 (inputField_text w));
        let w := set_historyLines hl w in
        Ok (true, e, close w)
      else Ok (true, e, w)
  | KeyPress Key_Tab => Ok (true, e, w)
  | KeyPress Key_Up =>
      match historyLines w with
      | [] => Ok (true, e, w)
      | _ =>
          let w := set_historyIdx
                     (Z.min (Z.of_nat (length (historyLines w)) - 1)
                            (historyIdx w + 1)) w in
          t ← or_raise IndexError (Py.getitem (historyLines w) (historyIdx w));
          '(e, w) ← setText t e w;
          Ok (true, e, w)
      end
  | KeyPress Key_Down =>
      match historyLines w with
      | [] => Ok (true, e, w)
      | _ =>
          let w := set_historyIdx (Z.max (historyIdx w - 1) 0) w in
          t ← or_raise IndexError (Py.getitem (historyLines w) (historyIdx w));
          '(e, w) ← setText t e w;
          Ok (true, e, w)
      end
  | _ => Ok (false, e, w)
  end.

(** [createQLineEdit]: the new line edit is empty and is not yet
    connected to [inputTextChanged]; its first text comes from the
    cursor or from the structure used last. *)
Definition createQLineEdit (e : Env) (w : SQWidget) : SQWidget :=
  let w := set_inputField_text "" w in
  let w := set_completer_model (structNames w) w in
  let text :=
    match tryCursorAsStruct e with
    | EmptyString => LSTRUC_name e
    | s => Some s
    end in
  let w :=
    match text with
    | None | Some EmptyString => w
    | Some text =>
        let text := text +:+ " " in
        let text :=
          match tryCursorAsOffset e with
          | EmptyString => text
          | mem_off => text +:+ mem_off +:+ " "
          end in
        set_inputField_text text w
    end in
  set_historyLines (inputField_text w :: historyLines w) w.

Definition HIST_LEN : Z := 15.

(** [__init__]: [struct_names] and [type_names] are the lists read from
    the host and [stored] is the history stored for this database.  The
    attributes that [__init__] only declares keep the values of [w0]
    until [validateParseInput] assigns them. *)
Definition SQWidget_init (e : Env) (struct_names type_names stored : list string)
    (w0 : SQWidget) : SQWidget :=
  let currHistory := take (Z.to_nat (HIST_LEN - 1)) stored in
  let w :=
    {| structNames := struct_names;
       typeNames := type_names;
       historyLines := currHistory;
       historyIdx := historyIdx w0;
       status := status w0;
       inputField_text := "";
       inputField_styleSheet := "";
       completer_model := [];
       structName := structName w0;
       memberOff := memberOff w0;
       memberType := memberType w0;
       memberName := memberName w0;
       overlapsMembers := overlapsMembers w0;
       hint_text := "";
       hint_shown := false;
       closed := false;
       history_currHistory := currHistory;
       history_saved := None |} in
  let w := createQLineEdit e w in
  set_historyIdx 0 w.

Definition show (e : Env) (w : SQWidget) : outcome (Env * SQWidget) :=
  inputTextChanged e w.

(** The keys pressed one after the other, each through [eventFilter]. *)
Fixpoint press_keys (fuel : nat) (e : Env) (w : SQWidget) (keys : list Key)
  : outcome (Env * SQWidget) :=
  match keys with
  | [] => Ok (e, w)
  | k :: keys' =>
      '(_, e, w) ← eventFilter fuel e w (KeyPress k);
      press_keys fuel e w keys'
  end.

End Program.

Arguments Env : clear implicits.

(** ** A small host for examples

    One structure, [Point], with identifier 1 and eight bytes; the
    database is the list of its members, an offset and a name each. *)

Module ToyHost.

Definition H := list (Z * string).

Definition type_size (t : string) : Z :=
  if String.eqb t "_BYTE" then 1
  else if String.eqb t "int" then 4
  else if String.eqb t "Point" then 8
  else 0.

Definition type_known (t : string) : bool :=
  String.eqb t "_BYTE" || String.eqb t "int" || String.eqb t "Point".

Definition get_struc_id (h : H) (name : string) : Z :=
  if String.eqb name "Point" then 1 else 18446744073709551615.

Definition get_member_name (h : H) (sid off : Z) : option string :=
  if sid =? 1 then
    match filter (fun m => m.1 = off) h with
    | m :: _ => Some m.2
    | [] => None
    end
  else None.

Definition get_member_offset (h : H) (sid : Z) (name : string) : Z :=
  if sid =? 1 then
    match filter (fun m => m.2 = name) h with
    | m :: _ => m.1
    | [] => -1
    end
  else -1.

#[global] Instance host : Host H string := {|
  idc_BADADDR := 18446744073709551615;
  idc_get_struc_id := get_struc_id;
  idc_get_member_name := get_member_name;
  idc_get_member_offset := get_member_offset;
  idc_add_struc := fun h _ _ _ => (2, h);
  idc_del_struc_member := fun h sid off =>
    if sid =? 1 then filter (fun m => m.1 <> off) h else h;
  idc_expand_struc := fun h _ _ _ => h;
  tinfo_parse := fun _ name => name;
  tinfo_str := fun t => if type_known t then t else "";
  tinfo_get_size := type_size;
  tinfo_add_udm := fun h tif name _ bit_offset =>
    if String.eqb tif "Point" then h ++ [(bit_offset / 8, name)] else h;
  get_cursor_pointed_type := fun _ => "";
|}.

Definition point : H := [(0, "x"); (4, "y"); (6, "x_1")].

Definition env0 : Env H string :=
  {| db := point; LSTRUC_name := Some ""; calls := []; stdout := [] |}.

Definition blank : SQWidget :=
  {| structNames := []; typeNames := []; historyLines := [];
     historyIdx := 0; status := 7; inputField_text := "";
     inputField_styleSheet := ""; completer_model := [];
     structName := ""; memberOff := 0; memberType := ""; memberName := "";
     overlapsMembers := false; hint_text := ""; hint_shown := false;
     closed := false; history_currHistory := []; history_saved := None |}.

Definition widget0 : SQWidget :=
  SQWidget_init env0 ["Point"] ["int"; "_BYTE"] ["Point 4 int y"; "Point 0 int x"] blank.

Definition typed (text : string) : SQWidget := set_inputField_text text widget0.

(** A member beyond the end of [Point], ready to be committed. *)
Definition far : SQWidget :=
  set_status VALID
    (set_structName "Point"
       (set_memberOff 16
          (set_memberType "int"
             (set_memberName "x" (typed "Point 10 int x"))))).

End ToyHost.

(** ** What the claims speak of, in their own words *)

(** "Strips trailing [c] characters". *)
Fixpoint strip_trailing (c : ascii) (s : string) : string :=
  match s with
  | EmptyString => EmptyString
  | String a s' =>
      match strip_trailing c s' with
      | EmptyString => if Ascii.eqb a c then EmptyString else String a EmptyString
      | r => String a r
      end
  end.

(** The names [name], [name_1], [name_1_2], [name_1_2_3], ... *)
Fixpoint candidate (name : string) (k : nat) : string :=
  match k with
  | O => name
  | S k' => candidate name k' +:+ "_" +:+ Py.format_d (Z.of_nat k)
  end.

(** The pattern [[a-zA-Z_][a-zA-Z0-9_]*], matched against a whole string. *)
Definition matches_identifier (s : string) : bool :=
  match s with
  | String c s' =>
      isValidMemberName_head c && forallb isValidMemberName_tail (Py.chars s')
  | EmptyString => false
  end.

(** "Expanding the structure first": in a sequence of host calls, every
    [expand_struc] comes before every [add_udm]. *)
Definition expands_before_adding {tinfo} (cs : list (HostCall tinfo)) : Prop :=
  forall i j sid off delta tif name type bit_offset,
    cs !! i = Some (Call_expand_struc sid off delta) ->
    cs !! j = Some (Call_add_udm tif name type bit_offset) ->
    (i < j)%nat.

(** The number that a string of hexadecimal digits denotes. *)
Definition hex_number (s : string) : Z :=
  fold_left (fun acc c => acc * 16 + default 0 (Py.hex_value c)) (Py.chars s) 0.

(** The digits of upper-case hexadecimal: [0-9A-F]. *)
Definition is_upper_hex_digit (c : ascii) : bool :=
  let n := Py.ord c in
  ((48 <=? n) && (n <=? 57)) || ((65 <=? n) && (n <=? 70)).

Definition is_hex_digit (c : ascii) : bool :=
  match Py.hex_value c with Some _ => true | None => false end.

(** The characters that a hexadecimal literal may contain. *)
Definition hex_literal_char (c : ascii) : bool :=
  is_hex_digit c || Py.isspace c
  || Py.mem c "_+-xX".

(** A token: not empty and free of white space. *)
Definition token_ok (t : string) : Prop :=
  t <> EmptyString /\
  forall c, c ∈ Py.chars t -> Py.isspace c = false.

(** The tokens of the text in the input field. *)
Definition tokens_of (w : SQWidget) : list string :=
  Py.split (Py.replace "," "" (inputField_text w)).

(** The characters of a literal once [int] has normalised them. *)
Definition literal_char (c : ascii) : bool :=
  is_hex_digit c || Py.c_isspace c || Py.mem c "_+-xX".

Definition hex_fold (l : list ascii) (a : Z) : Z :=
  fold_left (fun acc c => acc * 16 + default 0 (Py.hex_value c)) l a.

(** A name that the overlap scan keeps: not empty and not a gap. *)
Definition kept (name : string) : Prop :=
  name <> EmptyString /\ Py.startswith "gap" name = false.

(** The invariant of the loop of [getOverlappedMemberNames]. *)
Definition scan_inv {H tinfo : Type} `{!Host H tinfo} (h : H) (struc_id : Z)
    (names : list (Z * string)) (added : list string) (got : bool) : Prop :=
  added = map snd names /\ NoDup added /\
  got = match names with [] => false | _ => true end /\
  (forall roff name, names !! 0%nat = Some (roff, name) ->
     roff = idc_get_member_offset h struc_id name).

(** Every structure of the host has a free name among the candidates of
    every name, which holds when structures have finitely many members. *)
Definition host_finite {H tinfo : Type} `{!Host H tinfo} : Prop :=
  forall (h : H) (sid : Z) (name : string),
    exists k, idc_get_member_offset h sid (candidate name k) = -1.

(** The widget is on a history that is not empty, with its index inside
    it. *)
Definition navigable (w : SQWidget) : Prop :=
  historyLines w <> [] /\
  0 <= historyIdx w <= Z.of_nat (length (historyLines w)) - 1.

(** Where a press of Up or Down takes the index. *)
Definition next_index (k : Key) (len idx : Z) : Z :=
  match k with
  | Key_Up => if idx <? len - 1 then idx + 1 else len - 1
  | _ => if 0 <? idx then idx - 1 else 0
  end.


(** ** More of the widget *)

(** [sub in s] for two strings. *)
Fixpoint str_contains (sub s : string) : bool :=
  String.prefix sub s ||
  match s with
  | String _ s' => str_contains sub s'
  | EmptyString => false
  end.

Section ProgramKeys.

Context {H tinfo : Type} `{!Host H tinfo}.

(** [keyPressEvent]: [escape] tells whether the key of the event is
    [Key_Escape].  The handler of the base class changes nothing that is
    modelled. *)
Definition keyPressEvent (e : Env H tinfo) (w : SQWidget) (escape : bool)
  : outcome (Env H tinfo * SQWidget) :=
  if escape then
    match historyLines w with
    | [] => Raise IndexError
    | _ :: lines =>
        let w := set_historyLines lines w in
        let text := inputField_text w in
        let e :=
          if String.eqb text ""
             || (negb (String.eqb text "")
                 && match LSTRUC_name e with
                    | Some name =>
                        negb (String.eqb name "") && negb (str_contains name text)
                    | None => false
                    end)
          then set_LSTRUC_name None e
          else e in
        Ok (e, close w)
    end
  else Ok (e, w).

(** What the user does with the open widget: edit the text of the input
    field, which emits [textChanged], press a key that [eventFilter]
    sees, or press Escape, which reaches [keyPressEvent]. *)
Inductive UserAction :=
| Edit (text : string)
| Press (key : Key)
| PressEscape.

Definition perform (fuel : nat) (e : Env H tinfo) (w : SQWidget) (a : UserAction)
  : outcome (Env H tinfo * SQWidget) :=
  match a with
  | Edit text => setText text e w
  | Press key =>
      '(_, e, w) ← eventFilter fuel e w (KeyPress key);
      Ok (e, w)
  | PressEscape => keyPressEvent e w true
  end.

(** The actions one after the other; the widget takes none once it is
    closed. *)
Fixpoint session (fuel : nat) (e : Env H tinfo) (w : SQWidget)
    (actions : list UserAction) : outcome (Env H tinfo * SQWidget) :=
  match actions with
  | [] => Ok (e, w)
  | a :: actions' =>
      if closed w then Ok (e, w)
      else
        '(e, w) ← perform fuel e w a;
        session fuel e w actions'
  end.

(** [Structline.run]: a new widget, shown. *)
Definition run (e : Env H tinfo) (struct_names type_names stored : list string)
    (w0 : SQWidget) : outcome (Env H tinfo * SQWidget) :=
  show e (SQWidget_init e struct_names type_names stored w0).

End ProgramKeys.

(** The line feed. *)
Definition LF : string := String "010" EmptyString.

(** ** A host with a cursor *)

(** The small host with the text [hl] under the cursor. *)
Module CursorHost.

Definition host (hl : string) : Host ToyHost.H string := {|
  idc_BADADDR := 18446744073709551615;
  idc_get_struc_id := ToyHost.get_struc_id;
  idc_get_member_name := ToyHost.get_member_name;
  idc_get_member_offset := ToyHost.get_member_offset;
  idc_add_struc := fun h _ _ _ => (2, h);
  idc_del_struc_member := fun h sid off =>
    if sid =? 1 then filter (fun m => m.1 <> off) h else h;
  idc_expand_struc := fun h _ _ _ => h;
  tinfo_parse := fun _ name => name;
  tinfo_str := fun t => if ToyHost.type_known t then t else "";
  tinfo_get_size := ToyHost.type_size;
  tinfo_add_udm := fun h tif name _ bit_offset =>
    if String.eqb tif "Point" then h ++ [(bit_offset / 8, name)] else h;
  get_cursor_pointed_type := fun _ => hl;
|}.

End CursorHost.

(** ** Notions used to state further properties *)

(** One step of the loop of [cleanHistory]. *)
Definition clean_step (history : list string) (ln : string) : list string :=
  if Nat.eqb (length history) 0 || negb (inb ln history)
  then history ++ [ln] else history.

(** The characters that [parseOffset] strips from the end. *)
Definition is_suffix_char (c : ascii) : bool := Py.mem c "hLu".

Section ScanState.

Context {H tinfo : Type} `{!Host H tinfo}.
Variables (h : H) (struc_id off : Z).

(** The state of the scan after the first [n] offsets: every pair after
    the first holds the first offset at which its name is found, these
    offsets grow, and there are at most [n] pairs. *)
Definition scanned (n : nat) (names : list (Z * string)) (added : list string)
    (got : bool) : Prop :=
  added = map snd names /\
  got = match names with [] => false | _ => true end /\
  (length names <= n)%nat /\
  (forall name, name ∈ added <->
     kept name /\
     exists i, (i < n)%nat /\
       idc_get_member_name h struc_id (off + Z.of_nat i) = Some name) /\
  (forall k roff name, names !! S k = Some (roff, name) ->
     exists i, (i < n)%nat /\ roff = off + Z.of_nat i /\
       idc_get_member_name h struc_id (off + Z.of_nat i) = Some name /\
       forall j, (j < i)%nat ->
         idc_get_member_name h struc_id (off + Z.of_nat j) <> Some name) /\
  (forall k p1 p2, names !! S k = Some p1 -> names !! S (S k) = Some p2 ->
     p1.1 < p2.1).

End ScanState.

(** An action that neither commits nor cancels. *)
Definition quiet (a : UserAction) : Prop :=
  match a with
  | Edit _ => True
  | Press key => key <> Key_Return
  | PressEscape => False
  end.

(** The history of the widget and the history it saved are within
    [HIST_LEN]. *)
Definition history_bounded (w : SQWidget) : Prop :=
  Z.of_nat (length (historyLines w)) <= HIST_LEN /\
  forall l, history_saved w = Some l ->
    NoDup l /\ l <> [] /\ Z.of_nat (length l) <= HIST_LEN.


(** * Properties *)

(** ** Strings *)

Lemma str_chars s : Py.str (Py.chars s) = s.
Proof. apply string_of_list_ascii_of_string. Qed.

Lemma chars_str l : Py.chars (Py.str l) = l.
Proof. apply list_ascii_of_string_of_list_ascii. Qed.

Lemma app_nil_string s : EmptyString +:+ s = s.
Proof. reflexivity. Qed.

Lemma app_cons_string a s1 s2 : String a s1 +:+ s2 = String a (s1 +:+ s2).
Proof. reflexivity. Qed.

Lemma chars_app s1 s2 : Py.chars (s1 +:+ s2) = Py.chars s1 ++ Py.chars s2.
Proof. induction s1 as [|a s1 IH]; simpl; [done|]. unfold Py.chars in *. simpl. by rewrite IH. Qed.

Lemma str_app l1 l2 : Py.str (l1 ++ l2) = Py.str l1 +:+ Py.str l2.
Proof. induction l1 as [|a l1 IH]; simpl; [done|]. unfold Py.str in *. simpl. by rewrite IH. Qed.

Lemma length_app_string s1 s2 :
  String.length (s1 +:+ s2) = (String.length s1 + String.length s2)%nat.
Proof. induction s1 as [|a s1 IH]; simpl; [done|]. by rewrite IH. Qed.

Lemma lstrip_chars_app cs l1 l2 :
  Py.lstrip_chars cs (l1 ++ l2) =
  match Py.lstrip_chars cs l1 with
  | [] => Py.lstrip_chars cs l2
  | r => r ++ l2
  end.
Proof.
  induction l1 as [|a l1 IH]; simpl; [done|].
  destruct (Py.mem a cs); [exact IH | done].
Qed.

Lemma str_nil_inv l : Py.str l = EmptyString -> l = [].
Proof. by destruct l. Qed.

Lemma rstrip_cons cs a s :
  Py.rstrip cs (String a s) =
  match Py.rstrip cs s with
  | EmptyString => if Py.mem a cs then EmptyString else String a EmptyString
  | r => String a r
  end.
Proof.
  unfold Py.rstrip. change (Py.chars (String a s)) with (a :: Py.chars s).
  simpl rev. rewrite lstrip_chars_app.
  destruct (Py.lstrip_chars cs (rev (Py.chars s))) as [|b r] eqn:E.
  - simpl. by destruct (Py.mem a cs).
  - rewrite rev_app_distr. change (rev [a] ++ ?l) with (a :: l).
    change (Py.str (a :: ?l)) with (String a (Py.str l)).
    destruct (Py.str (rev (b :: r))) eqn:E2; [|done].
    apply str_nil_inv in E2. apply (f_equal (@length _)) in E2.
    rewrite length_rev in E2. done.
Qed.

Lemma rstrip_strip_trailing cs c s :
  (forall a, Py.mem a cs = Ascii.eqb a c) ->
  Py.rstrip cs s = strip_trailing c s.
Proof.
  intros Hcs. induction s as [|a s IH]; [done|].
  rewrite rstrip_cons, IH, Hcs. done.
Qed.

Lemma strip_trailing_decompose c s :
  exists n, s = strip_trailing c s +:+ Py.str (repeat c n).
Proof.
  induction s as [|a s [n IH]].
  - by exists 0%nat.
  - simpl. destruct (strip_trailing c s) eqn:E.
    + destruct (Ascii.eqb_spec a c) as [->|].
      * exists (S n). rewrite IH at 1. done.
      * exists n. rewrite IH at 1. done.
    + exists n. rewrite IH at 1. done.
Qed.

Lemma strip_trailing_last c s r :
  strip_trailing c s <> r +:+ String c EmptyString.
Proof.
  revert r. induction s as [|a s IH]; intros r; simpl.
  - by destruct r.
  - destruct (strip_trailing c s) eqn:E.
    + destruct (Ascii.eqb_spec a c) as [->|Hne].
      * by destruct r.
      * destruct r as [|b r]; rewrite ?app_nil_string, ?app_cons_string;
          [congruence|].
        intros [= _ Hr]. by destruct r.
    + destruct r as [|b r]; rewrite ?app_nil_string, ?app_cons_string.
      * intros Hs. inversion Hs.
      * intros [= -> Hr]. by apply (IH r).
Qed.

(** ** [int(s, 16)] *)

Lemma hex_digit_plain c :
  is_hex_digit c = true ->
  Py.to_ascii_digit c = c /\ Py.c_isspace c = false /\
  Ascii.eqb c "+" = false /\ Ascii.eqb c "-" = false /\
  Ascii.eqb c "_" = false /\ Ascii.eqb c "x" = false /\
  Ascii.eqb c "X" = false.
Proof.
  destruct c as [[] [] [] [] [] [] [] []]; vm_compute; intros E;
    first [discriminate E | repeat split].
Qed.

Lemma scan_digits_hex l acc n :
  forallb is_hex_digit l = true ->
  Py.scan_digits acc false n l =
  Some (fold_left (fun a c => a * 16 + default 0 (Py.hex_value c)) l acc,
        false, (n + length l)%nat, []).
Proof.
  revert acc n. induction l as [|c l IH]; intros acc n Hl; simpl.
  - by rewrite Nat.add_0_r.
  - simpl in Hl. apply andb_true_iff in Hl as [Hc Hl].
    destruct (hex_digit_plain c Hc) as (_ & _ & _ & _ & -> & _).
    unfold is_hex_digit in Hc. destruct (Py.hex_value c) as [d|]; [|done].
    rewrite IH by done. simpl. do 3 f_equal. lia.
Qed.

Lemma map_to_ascii_digit_hex l :
  forallb is_hex_digit l = true -> map Py.to_ascii_digit l = l.
Proof.
  induction l as [|c l IH]; simpl; [done|].
  intros [Hc Hl]%andb_true_iff.
  destruct (hex_digit_plain c Hc) as (-> & _). by rewrite IH.
Qed.

Lemma int16_hex_digits r :
  r <> EmptyString ->
  forallb is_hex_digit (Py.chars r) = true ->
  Py.int16 r = Some (hex_number r).
Proof.
  intros Hne Hall. unfold Py.int16, hex_number.
  rewrite map_to_ascii_digit_hex by done.
  destruct (Py.chars r) as [|c l] eqn:E.
  { destruct r; [done | discriminate E]. }
  pose proof Hall as Hall'. simpl in Hall'.
  apply andb_true_iff in Hall' as [Hc Hl].
  destruct (hex_digit_plain c Hc) as (_ & Hsp & Hplus & Hminus & Hus & _).
  simpl Py.skip_spaces. rewrite Hsp. unfold Py.read_sign.
  rewrite Hplus, Hminus.
  assert (Py.skip_prefix (c :: l) = c :: l) as ->.
  { destruct l as [|c1 l]; [done|]. simpl in Hl.
    apply andb_true_iff in Hl as [Hc1 _].
    destruct (hex_digit_plain c1 Hc1) as (_ & _ & _ & _ & _ & Hx & HX).
    simpl. rewrite Hx, HX. by rewrite andb_false_r. }
  unfold Py.read_digits. rewrite Hus, scan_digits_hex by done.
  simpl. by destruct (fold_left _ l _).
Qed.


Lemma literal_char_normalised c :
  literal_char (Py.to_ascii_digit c) = true -> hex_literal_char c = true.
Proof.
  destruct c as [[] [] [] [] [] [] [] []]; vm_compute; intros E;
    first [discriminate E | reflexivity].
Qed.

Lemma skip_spaces_inv l :
  exists sp, l = sp ++ Py.skip_spaces l /\ forallb literal_char sp = true.
Proof.
  induction l as [|c l (sp & IH & Hsp)]; simpl.
  - by exists [].
  - destruct (Py.c_isspace c) eqn:E.
    + exists (c :: sp). split; [by rewrite IH at 1|].
      simpl. rewrite Hsp. unfold literal_char. rewrite E.
      by rewrite orb_true_r.
    + by exists [].
Qed.

Lemma skip_prefix_inv l :
  exists p, l = p ++ Py.skip_prefix l /\ forallb literal_char p = true.
Proof.
  destruct l as [|c0 [|c1 l]]; try by exists [].
  simpl. destruct (Ascii.eqb c0 "0" && _) eqn:E; [|by exists []].
  apply andb_true_iff in E as [E0 E1].
  apply Ascii.eqb_eq in E0 as ->.
  assert (literal_char c1 = true) as H1.
  { apply orb_true_iff in E1 as [->%Ascii.eqb_eq | ->%Ascii.eqb_eq]; done. }
  destruct l as [|c2 l]; [exists ["0"%char; c1]; simpl; by rewrite H1|].
  destruct (Ascii.eqb_spec c2 "_") as [->|].
  - exists ["0"%char; c1; "_"%char]. simpl. by rewrite H1.
  - exists ["0"%char; c1]. simpl. by rewrite H1.
Qed.

Lemma scan_digits_inv l acc prev n v p m rest :
  Py.scan_digits acc prev n l = Some (v, p, m, rest) ->
  exists ds, l = ds ++ rest /\ forallb literal_char ds = true.
Proof.
  revert acc prev n. induction l as [|c l IH]; intros acc prev n; simpl.
  - intros [= <- <- <- <-]. by exists [].
  - destruct (Ascii.eqb_spec c "_") as [->|Hc].
    + destruct prev; [done|]. intros (ds & -> & Hds)%IH.
      by exists ("_"%char :: ds).
    + destruct (Py.hex_value c) as [d|] eqn:E.
      * intros (ds & -> & Hds)%IH. exists (c :: ds). split; [done|].
        simpl. rewrite Hds. unfold literal_char, is_hex_digit. by rewrite E.
      * intros [= <- <- <- <-]. by exists [].
Qed.

Lemma skip_spaces_nil l :
  Py.skip_spaces l = [] -> forallb literal_char l = true.
Proof.
  intros E. destruct (skip_spaces_inv l) as (sp & Hl & Hsp).
  rewrite E, app_nil_r in Hl. by subst.
Qed.

Lemma read_sign_inv l :
  exists sg, l = sg ++ (Py.read_sign l).2 /\ forallb literal_char sg = true.
Proof.
  destruct l as [|c l]; [by exists []|]. simpl.
  destruct (Ascii.eqb_spec c "+") as [->|]; [by exists ["+"%char]|].
  destruct (Ascii.eqb_spec c "-") as [->|]; [by exists ["-"%char]|].
  by exists [].
Qed.

Lemma read_digits_inv l v :
  Py.read_digits l = Some v -> forallb literal_char l = true.
Proof.
  unfold Py.read_digits. destruct l as [|c l]; [done|].
  destruct (Ascii.eqb c "_"); [done|].
  destruct (Py.scan_digits _ _ _ _) as [[[[v' prev] n] rest]|] eqn:E; [|done].
  apply scan_digits_inv in E as (ds & -> & Hds).
  destruct prev; [done|]. destruct (Nat.eqb n 0); [done|].
  destruct (Py.skip_spaces rest) eqn:E4; [|done].
  intros _. rewrite forallb_app, Hds. by apply skip_spaces_nil.
Qed.

Lemma int16_literal_chars s v :
  Py.int16 s = Some v -> forallb hex_literal_char (Py.chars s) = true.
Proof.
  unfold Py.int16. intros Hv.
  assert (forallb literal_char (map Py.to_ascii_digit (Py.chars s)) = true) as Hall.
  { destruct (skip_spaces_inv (map Py.to_ascii_digit (Py.chars s)))
      as (sp & Hsp & Hsp'). rewrite Hsp, forallb_app, Hsp'. simpl.
    destruct (read_sign_inv (Py.skip_spaces (map Py.to_ascii_digit (Py.chars s))))
      as (sg & Hsg & Hsg'). rewrite Hsg, forallb_app, Hsg'. simpl.
    destruct (Py.read_sign _) as [sign l1]. simpl.
    destruct (skip_prefix_inv l1) as (p & Hp & Hp').
    rewrite Hp, forallb_app, Hp'. simpl.
    destruct (Py.read_digits (Py.skip_prefix l1)) as [v'|] eqn:E; [|done].
    by apply read_digits_inv in E. }
  clear Hv. induction (Py.chars s) as [|c l IH]; [done|].
  simpl in *. apply andb_true_iff in Hall as [Hc Hl].
  by rewrite (literal_char_normalised c Hc), IH.
Qed.

(** ** ["{:X}".format] *)

Lemma hex_digit_value d :
  0 <= d < 16 ->
  Py.hex_value (Py.hex_digit d) = Some d /\
  is_upper_hex_digit (Py.hex_digit d) = true.
Proof.
  intros Hd.
  assert (d = 0 \/ d = 1 \/ d = 2 \/ d = 3 \/ d = 4 \/ d = 5 \/ d = 6 \/ d = 7 \/
          d = 8 \/ d = 9 \/ d = 10 \/ d = 11 \/ d = 12 \/ d = 13 \/ d = 14 \/
          d = 15) as Hcases by lia.
  repeat (destruct Hcases as [-> | Hcases]; [by vm_compute|]).
  subst d. by vm_compute.
Qed.

Lemma digits_go_acc digit b fuel : forall n acc,
  Py.digits_go digit b fuel n acc = Py.digits_go digit b fuel n [] ++ acc.
Proof.
  induction fuel as [|fuel IH]; intros n acc; simpl; [done|].
  destruct (n / b =? 0); [done|].
  rewrite IH, (IH _ [_]), <- app_assoc. done.
Qed.


Lemma digits_go_hex fuel : forall n,
  0 <= n < 16 ^ Z.of_nat fuel ->
  hex_fold (Py.digits_go Py.hex_digit 16 fuel n []) 0 = n /\
  forallb is_upper_hex_digit (Py.digits_go Py.hex_digit 16 fuel n []) = true.
Proof.
  induction fuel as [|fuel IH]; intros n Hn.
  - simpl in *. split; [lia | done].
  - rewrite Nat2Z.inj_succ, Z.pow_succ_r in Hn by lia. simpl.
    assert (0 <= n mod 16 < 16) as Hmod by (apply Z.mod_pos_bound; lia).
    destruct (hex_digit_value (n mod 16) Hmod) as [Hval Hup].
    pose proof (Z.div_mod n 16 ltac:(lia)) as Hdm.
    destruct (Z.eqb_spec (n / 16) 0) as [Hz|Hnz].
    + unfold hex_fold. simpl. rewrite Hval, Hup. simpl. split; [lia | done].
    + rewrite digits_go_acc. unfold hex_fold. rewrite fold_left_app, forallb_app.
      destruct (IH (n / 16)) as [Hv Hu].
      { split; [apply Z.div_pos; lia | apply Z.div_lt_upper_bound; lia]. }
      unfold hex_fold in Hv. rewrite Hv, Hu. simpl. rewrite Hval, Hup.
      simpl. split; [lia | done].
Qed.

Lemma digits_go_nonempty digit b fuel n acc :
  Py.digits_go digit b (S fuel) n acc <> [].
Proof.
  simpl. destruct (n / b =? 0); [done|].
  rewrite digits_go_acc. by destruct (Py.digits_go _ _ _ _ _).
Qed.

Lemma log2_fuel n : 0 <= n -> n < 16 ^ Z.of_nat (S (Z.to_nat (Z.log2 n))).
Proof.
  intros Hn. rewrite Nat2Z.inj_succ, Z2Nat.id by apply Z.log2_nonneg.
  destruct (Z.eq_dec n 0) as [->|Hnz]; [by vm_compute|].
  pose proof (Z.log2_spec n ltac:(lia)) as [_ Hlt].
  pose proof (Z.log2_nonneg n).
  assert (2 ^ Z.succ (Z.log2 n) <= 16 ^ Z.succ (Z.log2 n)); [|lia].
  apply Z.pow_le_mono_l. lia.
Qed.

(** For a number that is not negative, ["{:X}".format] writes digits of
    [0-9A-F] only, at least one, and they denote the number. *)
Lemma format_X_denotes n :
  0 <= n ->
  Py.format_X n <> EmptyString /\
  forallb is_upper_hex_digit (Py.chars (Py.format_X n)) = true /\
  hex_number (Py.format_X n) = n.
Proof.
  intros Hn. unfold Py.format_X, Py.sign_of, hex_number, Py.digits.
  destruct (Z.ltb_spec n 0); [lia|]. rewrite Z.abs_eq by done. simpl app.
  rewrite chars_str.
  destruct (digits_go_hex _ n (conj Hn (log2_fuel n Hn))) as [Hv Hu].
  split; [|done].
  intros Hnil%str_nil_inv. by apply digits_go_nonempty in Hnil.
Qed.

Lemma upper_hex_is_hex l :
  forallb is_upper_hex_digit l = true -> forallb is_hex_digit l = true.
Proof.
  induction l as [|c l IH]; simpl; [done|].
  intros [Hc Hl]%andb_true_iff. rewrite IH by done.
  rewrite andb_true_r. revert Hc.
  destruct c as [[] [] [] [] [] [] [] []]; by vm_compute.
Qed.

(** Reading back what ["{:X}".format] wrote gives the number. *)
Lemma int16_format_X n : 0 <= n -> Py.int16 (Py.format_X n) = Some n.
Proof.
  intros Hn. destruct (format_X_denotes n Hn) as (Hne & Hup & Hval).
  rewrite int16_hex_digits; [by rewrite Hval | done | by apply upper_hex_is_hex].
Qed.

Lemma format_X_negative n :
  n < 0 -> Py.format_X n = String "-" (Py.format_X (- n)).
Proof.
  intros Hn. unfold Py.format_X, Py.sign_of.
  destruct (Z.ltb_spec n 0); [|lia]. destruct (Z.ltb_spec (- n) 0); [lia|].
  by rewrite Z.abs_opp.
Qed.

(** ** [parseOffset] *)

(** C8: [parseOffset] strips the trailing [h] characters, then the
    trailing [L] characters, then the trailing [u] characters, and reads
    what is left with [int(_, 16)]: a remainder made of hexadecimal
    digits gives the number it denotes in base 16, a remainder with a
    character that no hexadecimal literal contains raises, and
    [parseOffset("10")] is 16. *)
Theorem parseOffset_strips_then_reads_hex (s : string) :
  let r := strip_trailing "u" (strip_trailing "L" (strip_trailing "h" s)) in
  parseOffset s = Py.int16 r /\
  (r <> EmptyString -> forallb is_hex_digit (Py.chars r) = true ->
   parseOffset s = Some (hex_number r)) /\
  (forallb hex_literal_char (Py.chars r) = false -> parseOffset s = None) /\
  parseOffset "10" = Some 16.
Proof.
  intros r.
  assert (parseOffset s = Py.int16 r) as Hr.
  { unfold parseOffset, r. simpl.
    rewrite (rstrip_strip_trailing "h" "h"), (rstrip_strip_trailing "LL" "L"),
      (rstrip_strip_trailing "u" "u"); [done|..];
      intros a; unfold Py.mem; simpl; by destruct (Ascii.eqb a _). }
  split; [done|]. split; [|split; [|done]].
  - intros Hne Hall. rewrite Hr. by apply int16_hex_digits.
  - intros Hbad. rewrite Hr. destruct (Py.int16 r) as [v|] eqn:E; [|done].
    apply int16_literal_chars in E. congruence.
Qed.

Lemma parseOffset_strips_then_reads_hex_witness :
  parseOffset "1FuLLh" = Some 31 /\ parseOffset "1Gh" = None.
Proof.
  split.
  - apply (parseOffset_strips_then_reads_hex "1FuLLh"); [discriminate | reflexivity].
  - apply (parseOffset_strips_then_reads_hex "1Gh"). reflexivity.
Defined.

(** ** [addSuffixIfTaken] *)

Section AddSuffix.

Context {H tinfo : Type} `{!Host H tinfo}.
Variables (h : H) (struc_id : Z) (mem_name : string).

Let taken (k : nat) : Prop :=
  idc_get_member_offset h struc_id (candidate mem_name k) <> -1.

Lemma candidate_length k : (k <= String.length (candidate mem_name k))%nat.
Proof.
  induction k as [|k IH]; simpl; [lia|].
  rewrite !length_app_string. simpl. lia.
Qed.

Lemma loop_reaches k : forall j fuel,
  (forall i, (j <= i < j + k)%nat -> taken i) ->
  ~ taken (j + k) ->
  (k < fuel)%nat ->
  addSuffixIfTaken_loop fuel h struc_id (candidate mem_name j)
    (Z.of_nat j + 1) = Ok (candidate mem_name (j + k)).
Proof.
  induction k as [|k IH]; intros j fuel Htaken Hfree Hfuel.
  - destruct fuel as [|fuel]; [lia|]. simpl.
    rewrite Nat.add_0_r in *. unfold taken in Hfree.
    destruct (Z.eqb_spec (idc_get_member_offset h struc_id (candidate mem_name j)) (-1));
      [done|]. by destruct Hfree.
  - destruct fuel as [|fuel]; [lia|]. simpl.
    assert (taken j) as Hj by (apply Htaken; lia). unfold taken in Hj.
    destruct (Z.eqb_spec (idc_get_member_offset h struc_id (candidate mem_name j)) (-1));
      [done|]. simpl.
    replace (Z.of_nat j + 1) with (Z.of_nat (S j)) by lia.
    change (candidate mem_name j +:+ "_" +:+ Py.format_d (Z.of_nat (S j)))
      with (candidate mem_name (S j)).
    rewrite (IH (S j) fuel); [f_equal; f_equal; lia| | |lia].
    + intros i Hi. apply Htaken. lia.
    + by replace (S j + k)%nat with (j + S k)%nat by lia.
Qed.

Lemma least_free n :
  ~ taken n -> exists k, ~ taken k /\ forall j, (j < k)%nat -> taken j.
Proof.
  induction (lt_wf n) as [n _ IH]. intros Hn.
  destruct (decide (Forall (fun j => taken j) (seq 0 n))) as [Hall|Hex].
  - exists n. split; [done|]. intros j Hj.
    rewrite Forall_forall in Hall. apply Hall, list_elem_of_In, in_seq. lia.
  - apply not_Forall_Exists in Hex; [|intros j; unfold taken; apply _].
    apply Exists_exists in Hex as (m & Hm%list_elem_of_In%in_seq & Hfree).
    apply (IH m); [lia | done].
Qed.

Lemma finitely_many_taken_free :
  (exists names : list string,
     forall k, taken k -> In (candidate mem_name k) names) ->
  exists k, ~ taken k.
Proof.
  intros (names & Hnames).
  exists (S (list_max (map String.length names))). intros Hk.
  apply Hnames in Hk.
  pose proof (candidate_length (S (list_max (map String.length names)))) as Hlen.
  assert (String.length (candidate mem_name (S (list_max (map String.length names))))
          <= list_max (map String.length names))%nat; [|lia].
  pose proof (proj1 (list_max_le (map String.length names) _) (Nat.le_refl _)) as Hmax.
  rewrite List.Forall_forall in Hmax. apply Hmax, in_map, Hk.
Qed.

(** C10: when only finitely many of the names [name], [name_1],
    [name_1_2], ... are taken in the structure, [addSuffixIfTaken]
    returns, with enough fuel for its loop, the first of them for which
    [get_member_offset] gives -1. *)
Theorem addSuffixIfTaken_first_free :
  (exists names : list string,
     forall k, idc_get_member_offset h struc_id (candidate mem_name k) <> -1 ->
               In (candidate mem_name k) names) ->
  exists k fuel0,
    (forall fuel, (fuel0 <= fuel)%nat ->
       addSuffixIfTaken fuel h struc_id mem_name = Ok (candidate mem_name k)) /\
    idc_get_member_offset h struc_id (candidate mem_name k) = -1 /\
    (forall j, (j < k)%nat ->
       idc_get_member_offset h struc_id (candidate mem_name j) <> -1).
Proof.
  intros Hfin. destruct (finitely_many_taken_free Hfin) as (n & Hn).
  destruct (least_free n Hn) as (k & Hfree & Hbelow).
  exists k, (S k). repeat split.
  - intros fuel Hfuel. unfold addSuffixIfTaken.
    apply (loop_reaches k 0 fuel); [intros i Hi; apply Hbelow; lia|done|lia].
  - unfold taken in Hfree. lia.
  - exact Hbelow.
Qed.

End AddSuffix.

(** ** [getOverlappedMemberNames] *)

Lemma range_elem (n i : Z) : i ∈ Py.range n <-> 0 <= i < n.
Proof.
  unfold Py.range. rewrite list_elem_of_fmap. split.
  - intros (k & -> & Hk%list_elem_of_In%in_seq). lia.
  - intros Hi. exists (Z.to_nat i). split; [lia|].
    apply list_elem_of_In, in_seq. lia.
Qed.

Lemma inb_elem (x : string) (l : list string) : inb x l = true <-> x ∈ l.
Proof.
  unfold inb. rewrite existsb_exists. split.
  - intros (y & Hy & ->%String.eqb_eq). by apply list_elem_of_In.
  - intros Hx. exists x. split; [by apply list_elem_of_In | apply String.eqb_refl].
Qed.

Section Overlap.

Context {H tinfo : Type} `{!Host H tinfo}.
Variables (h : H) (struc_id off : Z).


Let step := overlap_step h struc_id off.


Lemma overlap_step_cases names added got i :
  (step (names, added, got) i = (names, added, got) /\
   forall name, idc_get_member_name h struc_id (off + i) = Some name ->
                kept name -> name ∈ added) \/
  (exists name, idc_get_member_name h struc_id (off + i) = Some name /\
     kept name /\ (name ∉ added) /\
     step (names, added, got) i =
     (names ++ [(if negb got then idc_get_member_offset h struc_id name
                 else off + i, name)],
      added ++ [name], true)).
Proof.
  unfold step, overlap_step.
  destruct (idc_get_member_name h struc_id (off + i)) as [name|]; [|by left].
  destruct (String.eqb_spec name "") as [->|Hne]; simpl.
  { left. split; [done|]. intros ? [= <-] [? _]. done. }
  destruct (inb name added) eqn:Hin; simpl.
  { left. split; [done|]. intros ? [= <-] _. by apply inb_elem. }
  destruct (Py.startswith "gap" name) eqn:Hgap; simpl.
  { left. split; [done|]. intros ? [= <-] [_ ?]. congruence. }
  right. exists name. repeat split; try done.
  intros Hin'%inb_elem. congruence.
Qed.

Lemma scan_inv_step names added got i name :
  scan_inv h struc_id names added got -> name ∉ added ->
  scan_inv h struc_id
    (names ++ [(if negb got then idc_get_member_offset h struc_id name
                else off + i, name)])
    (added ++ [name]) true.
Proof.
  intros (Hadded & Hnodup & Hgot & Hhead) Hnew. repeat split.
  - by rewrite map_app, Hadded.
  - apply NoDup_app. repeat split; [done| |apply NoDup_singleton].
    intros x Hx ->%list_elem_of_singleton. done.
  - by destruct names.
  - intros roff name'. destruct names as [|p names]; simpl.
    + rewrite Hgot. simpl. by intros [= <- <-].
    + apply Hhead.
Qed.

Lemma overlap_fold offs : forall names added got names' added' got',
  scan_inv h struc_id names added got ->
  fold_left step offs (names, added, got) = (names', added', got') ->
  scan_inv h struc_id names' added' got' /\
  (forall name, name ∈ added' <->
     name ∈ added \/
     (kept name /\ exists i, i ∈ offs /\
        idc_get_member_name h struc_id (off + i) = Some name)) /\
  (forall roff name, (roff, name) ∈ names' ->
     (roff, name) ∈ names \/
     exists i, i ∈ offs /\
       idc_get_member_name h struc_id (off + i) = Some name /\
       (roff = off + i \/ roff = idc_get_member_offset h struc_id name)).
Proof.
  induction offs as [|i offs IH]; intros names added got names' added' got' Hinv;
    cbn [fold_left].
  - intros [= <- <- <-]. split; [done|]. split.
    + intros name. split; [by left|]. intros [?|(_ & i & Hi & _)]; [done|].
      by apply elem_of_nil in Hi.
    + intros roff name ?. by left.
  - destruct (overlap_step_cases names added got i)
      as [[-> Hseen]|(name & Hname & Hkept & Hnew & ->)].
    + intros (Hinv' & Hnames & Hoffs)%IH; [|done].
      split; [done|]. split.
      * intros name. rewrite Hnames. split.
        -- intros [?|(Hk & j & Hj & Hjn)]; [by left|].
           right. split; [done|]. exists j. split; [by right | done].
        -- intros [?|(Hk & j & Hj & Hjn)]; [by left|].
           apply elem_of_cons in Hj as [->|Hj].
           ++ left. by apply Hseen.
           ++ right. split; [done|]. by exists j.
      * intros roff name [?|(j & Hj & Hjn)]%Hoffs; [by left|].
        right. exists j. split; [by right | done].
    + intros (Hinv' & Hnames & Hoffs)%IH; [|by apply scan_inv_step].
      split; [done|]. split.
      * intros name'. rewrite Hnames, elem_of_app, list_elem_of_singleton.
        split.
        -- intros [[?| ->]|(Hk & j & Hj & Hjn)]; [by left| |].
           ++ right. split; [done|]. exists i. split; [by left | done].
           ++ right. split; [done|]. exists j. split; [by right | done].
        -- intros [?|(Hk & j & Hj & Hjn)]; [by left; left|].
           apply elem_of_cons in Hj as [->|Hj].
           ++ left. right. congruence.
           ++ right. split; [done|]. by exists j.
      * intros roff name' [Hin|(j & Hj & Hjn)]%Hoffs.
        -- apply elem_of_app in Hin as [?|Hin]; [by left|].
           apply list_elem_of_singleton in Hin as [= -> ->].
           right. exists i. split; [by left|]. split; [done|].
           destruct (negb got); auto.
        -- right. exists j. split; [by right | done].
Qed.

Lemma overlap_fold_ext (h' : H) offs st :
  (forall i, i ∈ offs ->
     idc_get_member_name h' struc_id (off + i) =
     idc_get_member_name h struc_id (off + i)) ->
  (forall name, idc_get_member_offset h' struc_id name =
                idc_get_member_offset h struc_id name) ->
  fold_left (overlap_step h' struc_id off) offs st = fold_left step offs st.
Proof.
  revert st. induction offs as [|i offs IH]; intros st Hname Hoff; [done|].
  simpl. rewrite IH; [|intros j Hj; apply Hname; by right|done].
  f_equal. unfold step, overlap_step. destruct st as [[names added] got].
  rewrite Hname by (by left).
  destruct (idc_get_member_name h struc_id (off + i)); [|done].
  by rewrite Hoff.
Qed.

End Overlap.

Section OverlapClaim.

Context {H tinfo : Type} `{!Host H tinfo}.

(** C2: [getOverlappedMemberNames] reads the member table of the
    structure at the offsets [off], ..., [off + size - 1] and at no
    other; its result has one pair for each name found there that is
    not empty and does not start with [gap], no name twice; the offset
    of a pair is the offset where the name was found or the offset of
    the member, which it is for the first pair. *)
Theorem getOverlappedMemberNames_scan (h : H) (struc_name : string)
    (off size : Z) :
  let sid := idc_get_struc_id h struc_name in
  let r := getOverlappedMemberNames h struc_name off size in
  NoDup (map snd r) /\
  (forall name, name ∈ map snd r <->
     name <> EmptyString /\ Py.startswith "gap" name = false /\
     exists i, 0 <= i < size /\
       idc_get_member_name h sid (off + i) = Some name) /\
  (forall roff name, (roff, name) ∈ r ->
     exists i, 0 <= i < size /\
       idc_get_member_name h sid (off + i) = Some name /\
       (roff = off + i \/ roff = idc_get_member_offset h sid name)) /\
  (forall roff name, r !! 0%nat = Some (roff, name) ->
     roff = idc_get_member_offset h sid name) /\
  (forall h' : H,
     idc_get_struc_id h' struc_name = sid ->
     (forall i, 0 <= i < size ->
        idc_get_member_name h' sid (off + i) =
        idc_get_member_name h sid (off + i)) ->
     (forall name, idc_get_member_offset h' sid name =
                   idc_get_member_offset h sid name) ->
     getOverlappedMemberNames h' struc_name off size = r).
Proof.
  intros sid r. unfold r, getOverlappedMemberNames. fold sid.
  destruct (fold_left (overlap_step h sid off) (Py.range size) ([], [], false))
    as [[names added] got] eqn:E.
  pose proof E as E'.
  apply overlap_fold in E as ((Hadded & Hnodup & _ & Hhead) & Hnames & Hoffs).
  2:{ repeat split; [apply NoDup_nil_2 | done]. }
  simpl. rewrite <- Hadded. split; [done|]. split; [|split; [|split]].
  - intros name. rewrite Hnames. split.
    + intros [Hin|((? & ?) & i & Hi%range_elem & Hn)]; [by apply elem_of_nil in Hin|].
      eauto.
    + intros (? & ? & i & Hi & Hn). right. split; [done|].
      exists i. by rewrite range_elem.
  - intros roff name [Hin|(i & Hi%range_elem & Hn)]%Hoffs;
      [by apply elem_of_nil in Hin|]. eauto.
  - exact Hhead.
  - intros h' -> Hname Hoff. rewrite (overlap_fold_ext h sid off h'); [|intros i Hi%range_elem; auto|done].
    fold sid. by rewrite E'.
Qed.

End OverlapClaim.

(** ** Tokens *)


Lemma split_run_ok s :
  (forall c, c ∈ Py.chars (Py.split_run s).1 -> Py.isspace c = false) /\
  Forall token_ok (Py.split_run s).2.
Proof.
  induction s as [|c s [IHtok IHrest]]; simpl.
  - split; [|done]. intros c Hc. by apply elem_of_nil in Hc.
  - destruct (Py.split_run s) as [tok rest]. simpl in *.
    destruct (Py.isspace c) eqn:E; simpl.
    + split; [intros c' Hc; by apply elem_of_nil in Hc|].
      destruct tok; [done|]. simpl. by constructor.
    + split; [|done]. intros c' [->|Hc]%elem_of_cons; auto.
Qed.

Lemma split_tokens_ok s : Forall token_ok (Py.split s).
Proof.
  unfold Py.split. pose proof (split_run_ok s) as [Htok Hrest].
  destruct (Py.split_run s) as [tok rest]. simpl in *.
  destruct tok; [done|]. simpl. by constructor.
Qed.

Lemma replace_removes old s c :
  c ∈ Py.chars (Py.replace old EmptyString s) -> c <> old.
Proof.
  induction s as [|a s IH]; simpl.
  - intros Hc. by apply elem_of_nil in Hc.
  - destruct (Ascii.eqb_spec a old) as [->|Hne]; [exact IH|].
    intros [->|Hc]%elem_of_cons; auto.
Qed.

Lemma split_run_chars s :
  (forall c, c ∈ Py.chars (Py.split_run s).1 -> c ∈ Py.chars s) /\
  (forall t c, t ∈ (Py.split_run s).2 -> c ∈ Py.chars t -> c ∈ Py.chars s).
Proof.
  induction s as [|a s [IHtok IHrest]]; simpl.
  - split; [done|]. intros t c Ht. by apply elem_of_nil in Ht.
  - destruct (Py.split_run s) as [tok rest]. simpl in *.
    change (Py.chars (String a s)) with (a :: Py.chars s).
    destruct (Py.isspace a); simpl.
    + split; [intros c Hc; by apply elem_of_nil in Hc|].
      intros t c Ht Hc. right. destruct tok; simpl in Ht; [eauto|].
      apply elem_of_cons in Ht as [->|Ht]; eauto.
    + split; [|intros t c Ht Hc; right; eauto].
      intros c [->|Hc]%elem_of_cons; [by left | right; auto].
Qed.

Lemma split_chars s t c : t ∈ Py.split s -> c ∈ Py.chars t -> c ∈ Py.chars s.
Proof.
  unfold Py.split. pose proof (split_run_chars s) as [Htok Hrest].
  destruct (Py.split_run s) as [tok rest]. simpl in *.
  destruct tok; simpl; [eauto|].
  intros [->|Ht]%elem_of_cons; eauto.
Qed.

Lemma match_star_dollar_token s :
  (forall c, c ∈ Py.chars s -> Py.isspace c = false) ->
  match_star_dollar s = forallb isValidMemberName_tail (Py.chars s).
Proof.
  induction s as [|c s IH]; intros Hs; [done|].
  change (Py.chars (String c s)) with (c :: Py.chars s) in *. simpl.
  destruct (isValidMemberName_tail c) eqn:E; simpl.
  - apply IH. intros c' Hc. apply Hs. by right.
  - assert (Py.isspace c = false) as Hc by (apply Hs; by left).
    destruct (Z.eqb_spec (Py.ord c) 10) as [E10|]; [|done].
    unfold Py.isspace in Hc. rewrite E10 in Hc. done.
Qed.

Lemma isValidMemberName_token t :
  token_ok t -> isValidMemberName t = matches_identifier t.
Proof.
  intros [Hne Hsp]. destruct t as [|c s]; [done|]. simpl.
  f_equal. apply match_star_dollar_token. intros c' Hc. apply Hsp. by right.
Qed.

Section Validate.

Context {H tinfo : Type} `{!Host H tinfo}.


Lemma tokens_of_ok w :
  Forall (fun t => token_ok t /\ forall c, c ∈ Py.chars t -> c <> ","%char)
         (tokens_of w).
Proof.
  apply Forall_forall. intros t Ht. split.
  - pose proof (split_tokens_ok (Py.replace "," "" (inputField_text w))) as Hok.
    rewrite Forall_forall in Hok. by apply Hok.
  - intros c Hc. eapply replace_removes, split_chars; eauto.
Qed.

Lemma set_completer_model_id w : set_completer_model (completer_model w) w = w.
Proof. by destruct w. Qed.

Lemma setCompleterWords_total tokens w :
  exists m, setCompleterWords tokens w = Ok (set_completer_model m w).
Proof.
  unfold setCompleterWords.
  destruct (Z.eqb_spec (Z.of_nat (length tokens)) 2); [eauto|].
  destruct (Z.eqb_spec (Z.of_nat (length tokens)) 3) as [Hlen|].
  - unfold getTypeCompletion. destruct (typeNames w); simpl; [eauto|].
    destruct (tokens !! 2%nat) as [t2|] eqn:E; simpl; [eauto|].
    apply lookup_ge_None in E. lia.
  - exists (completer_model w). by rewrite set_completer_model_id.
Qed.

Lemma db_set_LSTRUC (b : bool) v (e : Env H tinfo) :
  db (if b then set_LSTRUC_name v e else e) = db e.
Proof. by destruct b. Qed.

#[local] Arguments parseOffset : simpl never.
#[local] Arguments isValidMemberName : simpl never.
#[local] Arguments isTypeValid : simpl never.
#[local] Arguments getOverlappedMemberNames : simpl never.
#[local] Arguments hint_lines : simpl never.
#[local] Arguments Py.format_X : simpl never.
#[local] Arguments Py.startswith : simpl never.
#[local] Arguments setCompleterWords : simpl never.

(** Reduces a run of [validateParseInput] on a literal token list. *)
Ltac vpi_red :=
  cbn;
  repeat match goal with
    | |- context [Z.of_nat ?n =? ?k] =>
        let b := eval vm_compute in (Z.of_nat n =? k) in
        change (Z.of_nat n =? k) with b; cbn
    end.

(** Splits on the tests that [validateParseInput] makes. *)
Ltac vpi_cases :=
  vpi_red;
  repeat match goal with
    | |- context [?a =? BADADDR] =>
        destruct (a =? BADADDR) eqn:?; vpi_red
    | |- context [parseOffset ?t] =>
        destruct (parseOffset t) eqn:?; vpi_red
    | |- context [setCompleterWords ?t ?w] =>
        let m := fresh "m" in
        destruct (setCompleterWords_total t w) as [m ->]; vpi_red
    | |- context [isTypeValid ?h ?t] =>
        destruct (isTypeValid h t) eqn:?; vpi_red
    | |- context [isValidMemberName ?t] =>
        destruct (isValidMemberName t) eqn:?; vpi_red
    | |- context [getOverlappedMemberNames ?h ?a ?b ?c] =>
        destruct (getOverlappedMemberNames h a b c) eqn:?; vpi_red
    | |- context [idc_get_member_name ?h ?a ?b] =>
        destruct (idc_get_member_name h a b) eqn:?; vpi_red
    end.

(** Opens [validateParseInput] and splits on the number of tokens. *)
Ltac vpi_start tokens Hlo Hhi :=
  unfold validateParseInput; cbv zeta; cbn [inputField_text set_status set_overlapsMembers];
  fold tokens; clearbody tokens;
  destruct (negb _) eqn:Hlo;
  [ apply negb_true_iff, andb_false_iff in Hlo
  | apply negb_false_iff, andb_true_iff in Hlo as [Hlo%Z.leb_le Hhi%Z.leb_le];
    destruct tokens as [|? [|? [|? [|? [|? tokens]]]]]; simpl length in *;
    try lia ].

(** C1: the tokens of the input text are what is left between white
    space once the commas are deleted, and [validateParseInput] ends
    with a status other than INVALID exactly when there are two to four
    tokens, [parseOffset] reads the second, the third (if any) names a
    valid type and the fourth (if any) matches
    [[a-zA-Z_][a-zA-Z0-9_]*]. *)
Theorem validateParseInput_status (e : Env H tinfo) (w : SQWidget) :
  let tokens := Py.split (Py.replace "," "" (inputField_text w)) in
  Forall (fun t => t <> EmptyString /\
                   forall c, c ∈ Py.chars t ->
                             Py.isspace c = false /\ c <> ","%char) tokens /\
  exists e' w',
    validateParseInput e w = Ok (e', w') /\
    (status w' <> INVALID <->
     (2 <= length tokens <= 4)%nat /\
     (exists t1 off, tokens !! 1%nat = Some t1 /\ parseOffset t1 = Some off) /\
     (forall t2, tokens !! 2%nat = Some t2 -> isTypeValid (db e) t2 = true) /\
     (forall t3, tokens !! 3%nat = Some t3 -> matches_identifier t3 = true)).
Proof.
  intros tokens. pose proof (tokens_of_ok w) as Hok.
  unfold tokens_of in Hok. fold tokens in Hok.
  split.
  { eapply Forall_impl; [exact Hok|]. intros t [[? ?] ?]. split; [done|]. auto. }
  assert (forall t3, tokens !! 3%nat = Some t3 ->
            isValidMemberName t3 = matches_identifier t3) as Hname.
  { intros t3 Ht3. apply isValidMemberName_token.
    rewrite Forall_forall in Hok. apply list_elem_of_lookup_2 in Ht3.
    by apply Hok in Ht3 as [? _]. }
  clear Hok. revert Hname.
  vpi_start tokens Hlo Hhi; intros Hname; vpi_cases;
    (do 2 eexists; split; [reflexivity|]); cbn;
    try specialize (Hname _ eq_refl);
    (split;
     [ first [ by intros []
             | intros _; split; [lia|]; split; [eauto|];
               split; intros ? [= <-]; congruence ]
     | first [ done
             | intros (? & (? & ? & Hp & ?) & Ht2 & Ht3);
               first [ lia | cbn in Hp; congruence
                     | specialize (Ht2 _ eq_refl); congruence
                     | specialize (Ht3 _ eq_refl); congruence ] ] ]).
Qed.

(** What a run of [validateParseInput] leaves alone, and the range of
    the status it ends with. *)
Lemma validateParseInput_frame (e : Env H tinfo) (w : SQWidget) :
  exists e' w',
    validateParseInput e w = Ok (e', w') /\
    db e' = db e /\ calls e' = calls e /\ stdout e' = stdout e /\
    historyLines w' = historyLines w /\ historyIdx w' = historyIdx w /\
    inputField_text w' = inputField_text w /\ closed w' = closed w /\
    history_saved w' = history_saved w /\
    (exists s : InputStatus, status w' = s).
Proof.
  set (tokens := Py.split (Py.replace "," "" (inputField_text w))).
  vpi_start tokens Hlo Hhi; vpi_cases;
    (do 2 eexists; split; [reflexivity|]); cbn; repeat split;
    first [by exists INVALID | by exists VALID | by exists ALERT_MEMBER
          | by exists ALERT_STRUCT].
Qed.


(** C9: when the run does not end INVALID, an input of two tokens sets
    the member type to [_BYTE], and an input of fewer than four tokens
    sets the member name to [field_] followed by the parsed offset in
    upper-case hexadecimal: the digits of [0-9A-F] that denote the
    offset when it is not negative. *)
Theorem validateParseInput_defaults (e : Env H tinfo) (w : SQWidget) :
  let tokens := Py.split (Py.replace "," "" (inputField_text w)) in
  exists e' w',
    validateParseInput e w = Ok (e', w') /\
    (status w' <> INVALID ->
     (length tokens = 2%nat -> memberType w' = "_BYTE") /\
     ((length tokens < 4)%nat ->
      exists t1 off,
        tokens !! 1%nat = Some t1 /\ parseOffset t1 = Some off /\
        memberOff w' = off /\
        memberName w' = "field_" +:+ Py.format_X off /\
        (0 <= off ->
         forallb is_upper_hex_digit (Py.chars (Py.format_X off)) = true /\
         hex_number (Py.format_X off) = off) /\
        (off < 0 -> Py.format_X off = String "-" (Py.format_X (- off))))).
Proof.
  intros tokens.
  vpi_start tokens Hlo Hhi; vpi_cases;
    (do 2 eexists; split; [reflexivity|]); cbn;
    first [ by intros []
          | intros _; split;
            [ first [done | lia]
            | first [ lia
                    | intros _; do 2 eexists; repeat (split; [done|]);
                      split; [|apply format_X_negative];
                      intros Hoff;
                      by destruct (format_X_denotes _ Hoff) as (_ & ? & ?) ] ] ].
Qed.

(** C7: two runs of [validateParseInput] on the same text and the same
    database give the same status and the same [overlapsMembers]; each
    of [structName], [memberOff], [memberType] and [memberName] is
    either assigned the same value by both runs or assigned by neither;
    and when the status is not INVALID all six hold the same values. *)
Theorem validateParseInput_deterministic (e1 e2 : Env H tinfo)
    (w1 w2 : SQWidget) :
  inputField_text w1 = inputField_text w2 ->
  db e1 = db e2 ->
  exists e1' w1' e2' w2',
    validateParseInput e1 w1 = Ok (e1', w1') /\
    validateParseInput e2 w2 = Ok (e2', w2') /\
    status w1' = status w2' /\
    overlapsMembers w1' = overlapsMembers w2' /\
    (structName w1' = structName w2' \/
     structName w1' = structName w1 /\ structName w2' = structName w2) /\
    (memberOff w1' = memberOff w2' \/
     memberOff w1' = memberOff w1 /\ memberOff w2' = memberOff w2) /\
    (memberType w1' = memberType w2' \/
     memberType w1' = memberType w1 /\ memberType w2' = memberType w2) /\
    (memberName w1' = memberName w2' \/
     memberName w1' = memberName w1 /\ memberName w2' = memberName w2) /\
    (status w1' <> INVALID ->
     structName w1' = structName w2' /\ memberOff w1' = memberOff w2' /\
     memberType w1' = memberType w2' /\ memberName w1' = memberName w2').
Proof.
  intros Htext Hdb. destruct e1 as [h l1 c1 o1], e2 as [h2 l2 c2 o2].
  simpl in Hdb. subst h2.
  set (tokens := Py.split (Py.replace "," "" (inputField_text w1))).
  unfold validateParseInput; cbv zeta;
    cbn [inputField_text set_status set_overlapsMembers].
  rewrite <- Htext. fold tokens. clearbody tokens.
  destruct (negb _) eqn:Hlo;
    [ apply negb_true_iff, andb_false_iff in Hlo
    | apply negb_false_iff, andb_true_iff in Hlo as [Hlo%Z.leb_le Hhi%Z.leb_le];
      destruct tokens as [|? [|? [|? [|? [|? tokens]]]]]; simpl length in *;
      try lia ];
    vpi_cases;
    (do 4 eexists; split; [reflexivity|]; split; [reflexivity|]); cbn;
    repeat split;
    first [ done | by left | by right | by intros []
          | by (intros _; repeat split) ].
Qed.

Lemma inputTextChanged_frame (e : Env H tinfo) (w : SQWidget) :
  exists e' w',
    inputTextChanged e w = Ok (e', w') /\
    db e' = db e /\ calls e' = calls e /\ stdout e' = stdout e /\
    historyLines w' = historyLines w /\ historyIdx w' = historyIdx w /\
    inputField_text w' = inputField_text w /\ closed w' = closed w /\
    history_saved w' = history_saved w /\
    (exists s : InputStatus,
       status w' = s /\ inputField_styleSheet w' = style_of s).
Proof.
  unfold inputTextChanged.
  destruct (validateParseInput_frame e w)
    as (e' & w' & -> & ? & ? & ? & ? & ? & ? & ? & ? & s & Hs).
  cbn. destruct (overlapsMembers w'); cbn; rewrite Hs;
    destruct s; cbn; (do 2 eexists; split; [reflexivity|]); cbn;
    repeat split; try done;
    first [by exists INVALID | by exists VALID | by exists ALERT_MEMBER
          | by exists ALERT_STRUCT].
Qed.

(** C6: a run of [validateParseInput] ends with one of the four values
    of [InputStatus], so that [inputTextChanged] never raises, and it
    sets the style sheet of the input field to the style of that
    status. *)
Theorem inputTextChanged_style (e : Env H tinfo) (w : SQWidget) :
  (exists e1 w1 (s : InputStatus),
     validateParseInput e w = Ok (e1, w1) /\ status w1 = s) /\
  (exists e' w' (s : InputStatus),
     inputTextChanged e w = Ok (e', w') /\ status w' = s /\
     inputField_styleSheet w' = style_of s).
Proof.
  split.
  - destruct (validateParseInput_frame e w)
      as (e1 & w1 & Hrun & _ & _ & _ & _ & _ & _ & _ & _ & s & Hs). eauto.
  - destruct (inputTextChanged_frame e w)
      as (e' & w' & Hrun & _ & _ & _ & _ & _ & _ & _ & _ & s & Hs & Hstyle).
    eauto 10.
Qed.

End Validate.

(** ** Committing a member *)

Section Commit.

Context {H tinfo : Type} `{!Host H tinfo}.


Lemma addSuffixIfTaken_returns (h : H) (sid : Z) (name : string) :
  (exists k, idc_get_member_offset h sid (candidate name k) = -1) ->
  exists k,
    idc_get_member_offset h sid (candidate name k) = -1 /\
    forall fuel, (k < fuel)%nat ->
      addSuffixIfTaken fuel h sid name = Ok (candidate name k).
Proof.
  intros (n & Hn).
  destruct (least_free h sid name n) as (k & Hfree & Hbelow); [lia|].
  exists k. split; [lia|]. intros fuel Hfuel.
  apply (loop_reaches h sid name k 0 fuel); [|done|done].
  intros i Hi. apply Hbelow. lia.
Qed.

Lemma fold_del_members sid off offs (e : Env H tinfo) :
  let e' := fold_left (del_members sid off) offs e in
  db e' = fold_left (fun h i => idc_del_struc_member h sid (off + i)) offs (db e) /\
  calls e' = calls e ++ map (fun i => Call_del_struc_member sid (off + i)) offs /\
  LSTRUC_name e' = LSTRUC_name e /\ stdout e' = stdout e.
Proof.
  revert e. induction offs as [|i offs IH]; intros e; simpl.
  - by rewrite app_nil_r.
  - destruct (IH (del_members sid off e i)) as (-> & -> & -> & ->).
    simpl. by rewrite <- app_assoc.
Qed.

(** What [_addStrucMember] asks of the host, call by call. *)
Lemma addStrucMember_trace (fuel : nat) (e : Env H tinfo) (w : SQWidget) :
  let sid0 := idc_get_struc_id (db e) (structName w) in
  let size := tinfo_get_size (getType (db e) (memberType w)) in
  let '(sid, h1, prologue) :=
    if sid0 =? BADADDR then
      ((idc_add_struc (db e) (-1) (structName w) 0).1,
       (idc_add_struc (db e) (-1) (structName w) 0).2,
       [Call_add_struc (-1) (structName w) 0])
    else
      (sid0,
       fold_left (fun h i => idc_del_struc_member h sid0 (memberOff w + i))
                 (Py.range size) (db e),
       map (fun i => Call_del_struc_member sid0 (memberOff w + i))
           (Py.range size)) in
  let tif := getType h1 (structName w) in
  let mem_type := getType h1 (memberType w) in
  let struc_size := tinfo_get_size tif in
  forall mem_name,
    addSuffixIfTaken fuel h1 sid (memberName w) = Ok mem_name ->
    exists e',
      _addStrucMember fuel e w = Ok e' /\
      LSTRUC_name e' = Some (structName w) /\
      calls e' =
        calls e ++ prologue ++
        (if struc_size <? memberOff w then
           [Call_add_udm tif mem_name mem_type (struc_size * 8);
            Call_expand_struc sid struc_size (memberOff w - struc_size)]
         else [Call_add_udm tif mem_name mem_type (memberOff w * 8)]) /\
      db e' =
        (if struc_size <? memberOff w then
           idc_expand_struc
             (tinfo_add_udm h1 tif mem_name mem_type (struc_size * 8))
             sid struc_size (memberOff w - struc_size)
         else tinfo_add_udm h1 tif mem_name mem_type (memberOff w * 8)).
Proof.
  intros sid0 size. unfold _addStrucMember. cbn [db set_LSTRUC_name].
  fold sid0. destruct (sid0 =? BADADDR).
  - destruct (idc_add_struc (db e) (-1) (structName w) 0) as [sid h1] eqn:E.
    cbn. intros mem_name ->. cbn.
    destruct (_ <? _); cbn; eexists; (split; [reflexivity|]); cbn;
      by rewrite <- ?app_assoc.
  - fold size.
    pose proof (fold_del_members sid0 (memberOff w) (Py.range size)
                  (set_LSTRUC_name (Some (structName w)) e)) as Hdel.
    cbv zeta in Hdel. destruct Hdel as (Hdb & Hcalls & Hl & _).
    cbn [db calls LSTRUC_name set_LSTRUC_name] in Hdb, Hcalls, Hl.
    rewrite <- Hdb.
    set (e1 := fold_left _ _ (set_LSTRUC_name _ e)) in *. clearbody e1.
    intros mem_name ->. cbn.
    destruct (_ <? _); cbn; eexists; (split; [reflexivity|]); cbn;
      rewrite Hcalls, Hl; by rewrite <- ?app_assoc.
Qed.


(** C3, amended: when the structure is not in the database,
    [_addStrucMember] creates it with [add_struc] and deletes nothing;
    otherwise it deletes the member at every byte offset of
    [memberOff, memberOff + size(memberType)).  Then it adds the
    member: at bit offset [memberOff * 8] when [memberOff] does not
    exceed the size of the structure, and otherwise at the end of the
    structure, after which it expands the structure at its old end by
    [memberOff - size] bytes.  The name is the free one that
    [addSuffixIfTaken] picks, and the call returns. *)
Theorem addStrucMember_creates_or_patches (e : Env H tinfo) (w : SQWidget) :
  host_finite ->
  let sid0 := idc_get_struc_id (db e) (structName w) in
  let size := tinfo_get_size (getType (db e) (memberType w)) in
  exists fuel0 sid h1 prologue mem_name,
    (if sid0 =? BADADDR then
       (sid, h1) = idc_add_struc (db e) (-1) (structName w) 0 /\
       prologue = [Call_add_struc (-1) (structName w) 0]
     else
       sid = sid0 /\
       h1 = fold_left
              (fun h i => idc_del_struc_member h sid0 (memberOff w + i))
              (Py.range size) (db e) /\
       prologue = map (fun i => Call_del_struc_member sid0 (memberOff w + i))
                      (Py.range size)) /\
    idc_get_member_offset h1 sid mem_name = -1 /\
    let tif := getType h1 (structName w) in
    let mem_type := getType h1 (memberType w) in
    let struc_size := tinfo_get_size tif in
    forall fuel, (fuel0 <= fuel)%nat ->
      exists e',
        _addStrucMember fuel e w = Ok e' /\
        calls e' =
          calls e ++ prologue ++
          (if struc_size <? memberOff w then
             [Call_add_udm tif mem_name mem_type (struc_size * 8);
              Call_expand_struc sid struc_size (memberOff w - struc_size)]
           else [Call_add_udm tif mem_name mem_type (memberOff w * 8)]).
Proof.
  intros Hfin sid0 size.
  pose proof (addStrucMember_trace) as Htrace.
  cbv zeta in Htrace. specialize (fun fuel => Htrace fuel e w).
  fold sid0 size in Htrace.
  destruct (sid0 =? BADADDR).
  - destruct (idc_add_struc (db e) (-1) (structName w) 0) as [sid h1] eqn:E.
    cbn [fst snd] in Htrace.
    destruct (addSuffixIfTaken_returns h1 sid (memberName w) (Hfin _ _ _))
      as (k & Hfree & Hrun).
    exists (S k), sid, h1, [Call_add_struc (-1) (structName w) 0],
      (candidate (memberName w) k).
    split; [done|]. split; [done|]. cbv zeta. intros fuel Hfuel.
    destruct (Htrace fuel _ (Hrun fuel Hfuel)) as (e' & ? & _ & ? & _). eauto.
  - destruct (addSuffixIfTaken_returns
                (fold_left
                   (fun h i => idc_del_struc_member h sid0 (memberOff w + i))
                   (Py.range size) (db e)) sid0 (memberName w) (Hfin _ _ _))
      as (k & Hfree & Hrun).
    eexists (S k), sid0, _, _, (candidate (memberName w) k).
    split; [repeat split|]. split; [done|]. cbv zeta. intros fuel Hfuel.
    destruct (Htrace fuel _ (Hrun fuel Hfuel)) as (e' & ? & _ & ? & _). eauto.
Qed.

Lemma addStrucMember_returns (e : Env H tinfo) (w : SQWidget) :
  host_finite ->
  exists fuel0, forall fuel, (fuel0 <= fuel)%nat ->
    exists e' cs,
      addStrucMember fuel e w = Ok e' /\ cs <> [] /\ calls e' = calls e ++ cs.
Proof.
  intros Hfin. unfold addStrucMember.
  pose proof (addStrucMember_trace) as Htrace.
  cbv zeta in Htrace. specialize (fun fuel => Htrace fuel e w).
  destruct (_ =? BADADDR).
  - destruct (idc_add_struc (db e) (-1) (structName w) 0) as [sid h1] eqn:E.
    cbn [fst snd] in Htrace.
    destruct (addSuffixIfTaken_returns h1 sid (memberName w) (Hfin _ _ _))
      as (k & Hfree & Hrun).
    exists (S k). intros fuel Hfuel.
    destruct (Htrace fuel _ (Hrun fuel Hfuel)) as (e' & ? & _ & ? & _).
    do 2 eexists. split; [done|]. split; [|done]. done.
  - destruct (addSuffixIfTaken_returns
                (fold_left
                   (fun h i => idc_del_struc_member h
                      (idc_get_struc_id (db e) (structName w)) (memberOff w + i))
                   (Py.range (tinfo_get_size (getType (db e) (memberType w))))
                   (db e))
                (idc_get_struc_id (db e) (structName w)) (memberName w)
                (Hfin _ _ _))
      as (k & Hfree & Hrun).
    exists (S k). intros fuel Hfuel.
    destruct (Htrace fuel _ (Hrun fuel Hfuel)) as (e' & ? & _ & ? & _).
    do 2 eexists. split; [done|]. split; [|done].
    intros [_ Hnil]%app_eq_nil. by destruct (_ <? _).
Qed.

End Commit.

(** C3, as stated, fails: for a member beyond the end of the structure
    the program adds the member at the old end first and expands the
    structure afterwards. *)
Lemma addStrucMember_adds_before_expanding :
  exists e',
    _addStrucMember 3 ToyHost.env0 ToyHost.far = Ok e' /\
    calls e' =
      [Call_del_struc_member 1 16; Call_del_struc_member 1 17;
       Call_del_struc_member 1 18; Call_del_struc_member 1 19;
       Call_add_udm "Point" "x_1_2" "int" 64; Call_expand_struc 1 8 8] /\
    ~ expands_before_adding (calls e').
Proof.
  eexists. split; [vm_compute; reflexivity|]. split; [reflexivity|].
  intros Hclaim.
  specialize (Hclaim 5%nat 4%nat 1 8 8 "Point" "x_1_2" "int" 64 eq_refl eq_refl).
  lia.
Qed.

(** ** Keys *)

Lemma getitem_in_range {A} (l : list A) (i : Z) :
  0 <= i < Z.of_nat (length l) ->
  exists x, Py.getitem l i = Some x /\ l !! Z.to_nat i = Some x.
Proof.
  intros Hi. unfold Py.getitem.
  destruct (Z.leb_spec 0 i); [|lia]. destruct (Z.ltb_spec i (Z.of_nat (length l))); [|lia].
  simpl. destruct (l !! Z.to_nat i) as [x|] eqn:E; [eauto|].
  apply lookup_ge_None in E. lia.
Qed.

Lemma match_nonempty {A B} (l : list A) (x y : B) :
  l <> [] -> match l with [] => x | _ :: _ => y end = y.
Proof. by destruct l. Qed.

Section Keys.

Context {H tinfo : Type} `{!Host H tinfo}.

Lemma setText_frame (t : string) (e : Env H tinfo) (w : SQWidget) :
  exists e' w',
    setText t e w = Ok (e', w') /\
    inputField_text w' = t /\
    db e' = db e /\ calls e' = calls e /\
    historyLines w' = historyLines w /\ historyIdx w' = historyIdx w /\
    closed w' = closed w.
Proof.
  unfold setText. destruct (String.eqb_spec t (inputField_text w)) as [->|Hne].
  - by exists e, w.
  - destruct (inputTextChanged_frame e (set_inputField_text t w))
      as (e' & w' & Hrun & ? & ? & _ & ? & ? & ? & ? & _).
    exists e', w'. by repeat split.
Qed.



Lemma eventFilter_navigate (fuel : nat) (e : Env H tinfo) (w : SQWidget)
    (k : Key) :
  navigable w -> k = Key_Up \/ k = Key_Down ->
  exists e' w',
    eventFilter fuel e w (KeyPress k) = Ok (true, e', w') /\
    historyLines w' = historyLines w /\
    historyIdx w' =
      next_index k (Z.of_nat (length (historyLines w))) (historyIdx w) /\
    historyLines w' !! Z.to_nat (historyIdx w') = Some (inputField_text w') /\
    db e' = db e /\ calls e' = calls e /\ closed w' = closed w /\
    navigable w'.
Proof.
  intros [Hne Hidx] Hk.
  set (len := Z.of_nat (length (historyLines w))) in *.
  set (idx' := next_index k len (historyIdx w)).
  assert (0 <= idx' < len) as Hidx'.
  { unfold idx', next_index. destruct Hk as [-> | ->]; repeat case_match; lia. }
  destruct (getitem_in_range (historyLines w) idx' Hidx') as (t & Hget & Hlook).
  destruct (setText_frame t e (set_historyIdx idx' w))
    as (e' & w' & Hset & Htext & ? & ? & Hlines & Hi & ?).
  cbn in Hlines, Hi.
  assert (eventFilter fuel e w (KeyPress k) = Ok (true, e', w')) as Hrun.
  { unfold eventFilter.
    destruct Hk as [-> | ->]; rewrite match_nonempty by done.
    - replace (Z.min _ _) with idx'
        by (unfold idx', next_index; fold len; case_match; lia).
      change (historyLines (set_historyIdx idx' w)) with (historyLines w).
      change (historyIdx (set_historyIdx idx' w)) with idx'.
      rewrite Hget. cbn [or_raise mbind outcome_bind]. by rewrite Hset.
    - replace (Z.max _ _) with idx'
        by (unfold idx', next_index; case_match; lia).
      change (historyLines (set_historyIdx idx' w)) with (historyLines w).
      change (historyIdx (set_historyIdx idx' w)) with idx'.
      rewrite Hget. cbn [or_raise mbind outcome_bind]. by rewrite Hset. }
  exists e', w'. split; [done|]. unfold navigable. rewrite Hlines, Hi, Htext.
  repeat split; try done; fold len; lia.
Qed.

#[local] Arguments eventFilter : simpl never.

Lemma press_keys_app (fuel : nat) (e : Env H tinfo) (w : SQWidget)
    (keys : list Key) (k : Key) :
  press_keys fuel e w (keys ++ [k]) =
  '(e1, w1) ← press_keys fuel e w keys;
  '(_, e2, w2) ← eventFilter fuel e1 w1 (KeyPress k);
  Ok (e2, w2).
Proof.
  revert e w. induction keys as [|k0 keys IH]; intros e w.
  - cbn. by destruct (eventFilter fuel e w (KeyPress k)) as [[[? ?] ?]| |].
  - cbn. destruct (eventFilter fuel e w (KeyPress k0)) as [[[? e0] w0]| |]; cbn;
      [apply IH | done..].
Qed.

Lemma press_keys_navigate (fuel : nat) (keys : list Key) :
  forall (e : Env H tinfo) (w : SQWidget),
  navigable w ->
  Forall (fun k => k = Key_Up \/ k = Key_Down) keys ->
  exists e' w',
    press_keys fuel e w keys = Ok (e', w') /\
    historyLines w' = historyLines w /\ navigable w' /\
    db e' = db e /\ calls e' = calls e /\ closed w' = closed w.
Proof.
  induction keys as [|k keys IH]; intros e w Hnav Hkeys.
  - by exists e, w.
  - apply Forall_cons in Hkeys as [Hk Hkeys].
    destruct (eventFilter_navigate fuel e w k Hnav Hk)
      as (e1 & w1 & Hrun & Hlines & _ & _ & Hdb & Hcalls & Hcl & Hnav1).
    destruct (IH e1 w1 Hnav1 Hkeys)
      as (e' & w' & Hrun' & Hlines' & Hnav' & Hdb' & Hcalls' & Hcl').
    exists e', w'. cbn. rewrite Hrun. cbn. rewrite Hrun'.
    repeat split; try congruence; apply Hnav'.
Qed.

(** C5: along any sequence of Up and Down presses on a history that is
    not empty, the index stays in [0, len - 1]; Up moves it up by one
    unless it is [len - 1], Down moves it down by one unless it is 0;
    and after each press the text of the input field is
    [historyLines[historyIdx]]. *)
Theorem history_navigation (fuel : nat) (e : Env H tinfo) (w : SQWidget)
    (keys : list Key) (k : Key) :
  historyLines w <> [] ->
  0 <= historyIdx w <= Z.of_nat (length (historyLines w)) - 1 ->
  Forall (fun k => k = Key_Up \/ k = Key_Down) (keys ++ [k]) ->
  let len := Z.of_nat (length (historyLines w)) in
  exists e1 w1 e2 w2,
    press_keys fuel e w keys = Ok (e1, w1) /\
    eventFilter fuel e1 w1 (KeyPress k) = Ok (true, e2, w2) /\
    press_keys fuel e w (keys ++ [k]) = Ok (e2, w2) /\
    historyLines w1 = historyLines w /\ historyLines w2 = historyLines w /\
    0 <= historyIdx w1 <= len - 1 /\
    0 <= historyIdx w2 <= len - 1 /\
    historyIdx w2 =
      match k with
      | Key_Up => if historyIdx w1 <? len - 1 then historyIdx w1 + 1 else len - 1
      | _ => if 0 <? historyIdx w1 then historyIdx w1 - 1 else 0
      end /\
    Py.getitem (historyLines w2) (historyIdx w2) = Some (inputField_text w2).
Proof.
  intros Hne Hidx [Hkeys [Hk _]%Forall_cons]%Forall_app len.
  destruct (press_keys_navigate fuel keys e w (conj Hne Hidx) Hkeys)
    as (e1 & w1 & Hrun1 & Hlines1 & Hnav1 & _).
  destruct (eventFilter_navigate fuel e1 w1 k Hnav1 Hk)
    as (e2 & w2 & Hrun2 & Hlines2 & Hi2 & Htext & _ & _ & _ & Hnav2).
  exists e1, w1, e2, w2. rewrite press_keys_app, Hrun1. cbn. rewrite Hrun2. cbn.
  destruct Hnav1 as [_ Hr1], Hnav2 as [_ Hr2].
  rewrite Hlines2, Hlines1 in *. fold len in Hr1, Hr2, Hi2.
  repeat split; try done; try lia.
  destruct (getitem_in_range (historyLines w) (historyIdx w2)) as (x & -> & Hx);
    [fold len; lia|]. congruence.
Qed.

Lemma setitem_head (l : list string) (x : string) :
  l <> [] -> exists l', Py.setitem l 0 x = Some l' /\ l' !! 0%nat = Some x /\
                        length l' = length l.
Proof.
  destruct l as [|y l]; [done|]. intros _. exists (x :: l). by cbn.
Qed.

Lemma close_fields (w : SQWidget) :
  closed (close w) = true /\ historyLines (close w) = historyLines w.
Proof. unfold close, saveHistory. cbn. by case_match. Qed.

(** C4: Return commits exactly when the status is not INVALID.  With a
    status other than INVALID it runs [addStrucMember], which asks the
    host for at least one update, stores the text of the input field
    as entry 0 of the history and closes the widget; with the status
    INVALID it changes nothing: no update of the database, no history
    entry, and the widget stays open. *)
Theorem return_commits_iff_valid (e : Env H tinfo) (w : SQWidget) :
  host_finite ->
  historyLines w <> [] ->
  closed w = false ->
  exists fuel0, forall fuel, (fuel0 <= fuel)%nat ->
    exists e' w',
      eventFilter fuel e w (KeyPress Key_Return) = Ok (true, e', w') /\
      (status w <> INVALID ->
       addStrucMember fuel e w = Ok e' /\
       (exists cs, cs <> [] /\ calls e' = calls e ++ cs) /\
       historyLines w' !! 0%nat = Some (inputField_text w) /\
       closed w' = true) /\
      (status w = INVALID -> e' = e /\ w' = w) /\
      (closed w' = true <-> status w <> INVALID).
Proof.
  intros Hfin Hne Hopen.
  destruct (addStrucMember_returns e w Hfin) as (fuel0 & Hcommit).
  exists fuel0. intros fuel Hfuel.
  destruct (Hcommit fuel Hfuel) as (e' & cs & Hrun & Hcs & Hcalls).
  destruct (setitem_head (historyLines w) (inputField_text w) Hne)
    as (hl & Hset & Hhead & _).
  unfold eventFilter.
  destruct (Z.eqb_spec (status w) INVALID) as [Hst|Hst]; cbn [negb].
  - exists e, w. split; [done|]. split; [done|]. split; [done|].
    rewrite Hopen. split; [done|]. intros Hst'. by destruct Hst'.
  - rewrite Hrun. cbn. rewrite Hset. cbn.
    destruct (close_fields (set_historyLines hl w)) as [Hcl Hlines].
    do 2 eexists. split; [reflexivity|]. rewrite Hcl, Hlines. cbn.
    split; [eauto 10|]. split; [done|]. done.
Qed.

(** The widget that [__init__] builds and [show] validates is open on
    a history that is not empty, with index 0. *)
Lemma shown_widget_navigable (e : Env H tinfo)
    (struct_names type_names stored : list string) (w0 : SQWidget) :
  exists e' w',
    show e (SQWidget_init e struct_names type_names stored w0) = Ok (e', w') /\
    navigable w' /\ historyIdx w' = 0 /\ closed w' = false.
Proof.
  unfold show.
  destruct (inputTextChanged_frame e
              (SQWidget_init e struct_names type_names stored w0))
    as (e' & w' & Hrun & _ & _ & _ & Hlines & Hidx & _ & Hcl & _).
  exists e', w'. split; [done|]. unfold navigable.
  rewrite Hlines, Hidx, Hcl. unfold SQWidget_init, createQLineEdit. cbn.
  repeat split; try done; try lia. by repeat case_match.
Qed.

End Keys.

(** ** Examples on the small host *)

Example parseOffset_examples :
  parseOffset "10" = Some 16 /\ parseOffset "0x1Fh" = Some 31 /\
  parseOffset "-10" = Some (-16) /\ parseOffset "1_0uLLh" = Some 16 /\
  parseOffset "10hu" = None /\ parseOffset "0x" = None /\
  parseOffset "" = None /\ parseOffset "1__0" = None.
Proof. repeat split; reflexivity. Qed.

Example builtin_examples :
  Py.split " a  b,c  " = ["a"; "b,c"] /\
  Py.replace "," "" "a,b,,c" = "abc" /\
  Py.format_X 255 = "FF" /\ Py.format_X 0 = "0" /\ Py.format_X (-16) = "-10" /\
  Py.format_d 120 = "120" /\ Py.format_08X 255 = "000000FF" /\
  Py.format_08X (-16) = "-0000010" /\
  isValidMemberName "field_1" = true /\ isValidMemberName "1x" = false /\
  isValidMemberName (String "a" (String "010" "")) = true.
Proof. repeat split; reflexivity. Qed.

Example validate_examples :
  (exists e' w', inputTextChanged ToyHost.env0 (ToyHost.typed "Point 4 int") = Ok (e', w')
     /\ status w' = ALERT_MEMBER /\ memberName w' = "field_4"
     /\ inputField_styleSheet w' = "border: 2px solid gold;") /\
  (exists e' w', inputTextChanged ToyHost.env0 (ToyHost.typed "Vector, 8") = Ok (e', w')
     /\ status w' = ALERT_STRUCT /\ memberType w' = "_BYTE") /\
  (exists e' w', inputTextChanged ToyHost.env0 (ToyHost.typed "Point 8 float") = Ok (e', w')
     /\ status w' = INVALID).
Proof. repeat split; do 2 eexists; (split; [vm_compute; reflexivity|]); by vm_compute. Qed.

(** The structures of the small host have finitely many members. *)
Lemma ToyHost_member_listed (h : ToyHost.H) (sid : Z) (name : string) :
  ToyHost.get_member_offset h sid name <> -1 -> In name (map snd h).
Proof.
  unfold ToyHost.get_member_offset. destruct (sid =? 1); [|done].
  destruct (filter _ h) as [|m ms] eqn:E; [done|]. intros _.
  assert (m ∈ filter (fun m : Z * string => m.2 = name) h) as Hm
    by (rewrite E; by left).
  apply list_elem_of_filter in Hm as [<- Hm].
  apply in_map. by apply list_elem_of_In.
Qed.

Lemma ToyHost_finite : host_finite (H := ToyHost.H).
Proof.
  intros h sid name.
  destruct (finitely_many_taken_free h sid name) as (k & Hk).
  - exists (map snd h). intros k. apply ToyHost_member_listed.
  - exists k. cbn in *. lia.
Qed.

(** ** The theorems at concrete inputs *)

Lemma validateParseInput_status_witness :
  exists e' w',
    validateParseInput ToyHost.env0 (ToyHost.typed "Point, 10 int zz") = Ok (e', w')
    /\ status w' <> INVALID.
Proof.
  destruct (validateParseInput_status ToyHost.env0 (ToyHost.typed "Point, 10 int zz"))
    as (_ & e' & w' & Hrun & Hiff).
  exists e', w'. split; [exact Hrun|]. apply Hiff.
  split; [vm_compute; lia|]. split; [by exists "10", 16|].
  split; intros t Ht; vm_compute in Ht; injection Ht as <-; reflexivity.
Defined.

Lemma getOverlappedMemberNames_scan_witness :
  "y" ∈ map snd (getOverlappedMemberNames ToyHost.point "Point" 4 4).
Proof.
  apply (getOverlappedMemberNames_scan ToyHost.point "Point" 4 4).
  split; [discriminate|]. split; [reflexivity|].
  exists 0. split; [lia | reflexivity].
Defined.

Lemma addStrucMember_creates_or_patches_witness :
  host_finite (H := ToyHost.H) /\
  exists fuel0, forall fuel, (fuel0 <= fuel)%nat ->
    exists e', _addStrucMember fuel ToyHost.env0 ToyHost.far = Ok e'.
Proof.
  split; [exact ToyHost_finite|].
  destruct (addStrucMember_creates_or_patches ToyHost.env0 ToyHost.far ToyHost_finite)
    as (fuel0 & sid & h1 & prologue & mem_name & _ & _ & Hrun).
  exists fuel0. intros fuel Hfuel.
  destruct (Hrun fuel Hfuel) as (e' & He' & _). by exists e'.
Defined.

Lemma return_commits_iff_valid_witness :
  host_finite (H := ToyHost.H) /\ historyLines ToyHost.far <> [] /\
  closed ToyHost.far = false /\
  exists fuel0, forall fuel, (fuel0 <= fuel)%nat ->
    exists e' w',
      eventFilter fuel ToyHost.env0 ToyHost.far (KeyPress Key_Return)
        = Ok (true, e', w') /\
      closed w' = true.
Proof.
  split; [exact ToyHost_finite|]. split; [discriminate|]. split; [reflexivity|].
  destruct (return_commits_iff_valid ToyHost.env0 ToyHost.far ToyHost_finite)
    as (fuel0 & Hrun); [discriminate | reflexivity |].
  exists fuel0. intros fuel Hfuel.
  destruct (Hrun fuel Hfuel) as (e' & w' & He' & _ & _ & Hclosed).
  exists e', w'. split; [exact He'|]. apply Hclosed. vm_compute. discriminate.
Defined.

Lemma history_navigation_witness :
  historyLines ToyHost.widget0 <> [] /\
  exists e2 w2,
    press_keys 0 ToyHost.env0 ToyHost.widget0 [Key_Up; Key_Up; Key_Down] = Ok (e2, w2) /\
    0 <= historyIdx w2 <= 2 /\
    Py.getitem (historyLines w2) (historyIdx w2) = Some (inputField_text w2).
Proof.
  split; [discriminate|].
  destruct (history_navigation 0 ToyHost.env0 ToyHost.widget0 [Key_Up; Key_Up] Key_Down)
    as (e1 & w1 & e2 & w2 & _ & _ & Hrun & _ & _ & _ & Hidx & _ & Htext).
  - discriminate.
  - change (0 <= 0 <= 3 - 1). lia.
  - simpl. repeat (apply List.Forall_cons; [auto|]). apply List.Forall_nil.
  - exists e2, w2. split; [exact Hrun|]. split; [exact Hidx | exact Htext].
Defined.

Lemma validateParseInput_deterministic_witness :
  exists e1' w1' e2' w2',
    validateParseInput ToyHost.env0 (ToyHost.typed "Point 4") = Ok (e1', w1') /\
    validateParseInput ToyHost.env0 (set_memberType "int" (ToyHost.typed "Point 4"))
      = Ok (e2', w2') /\
    status w1' = status w2' /\ memberType w1' = memberType w2'.
Proof.
  destruct (validateParseInput_deterministic ToyHost.env0 ToyHost.env0
              (ToyHost.typed "Point 4")
              (set_memberType "int" (ToyHost.typed "Point 4")))
    as (e1' & w1' & e2' & w2' & H1 & H2 & Hst & _ & _ & _ & _ & _ & Hall);
    [reflexivity | reflexivity |].
  exists e1', w1', e2', w2'. split; [exact H1|]. split; [exact H2|].
  split; [exact Hst|]. apply Hall.
  vm_compute in H1. injection H1 as _ <-. vm_compute. discriminate.
Defined.

Lemma validateParseInput_defaults_witness :
  exists e' w',
    validateParseInput ToyHost.env0 (ToyHost.typed "Point 2") = Ok (e', w') /\
    memberType w' = "_BYTE" /\ memberOff w' = 2 /\ memberName w' = "field_2".
Proof.
  destruct (validateParseInput_defaults ToyHost.env0 (ToyHost.typed "Point 2"))
    as (e' & w' & Hrun & Himp).
  exists e', w'. split; [exact Hrun|].
  destruct Himp as [Hty Hname].
  { vm_compute in Hrun. injection Hrun as _ <-. vm_compute. discriminate. }
  split; [by apply Hty|].
  destruct Hname as (t1 & off & Ht1 & Hoff & Hmo & Hmn & _); [vm_compute; lia|].
  vm_compute in Ht1. injection Ht1 as <-.
  vm_compute in Hoff. injection Hoff as <-. by split.
Defined.

Lemma addSuffixIfTaken_first_free_witness :
  exists k fuel0,
    (forall fuel, (fuel0 <= fuel)%nat ->
       addSuffixIfTaken fuel ToyHost.point 1 "x" = Ok (candidate "x" k)) /\
    idc_get_member_offset ToyHost.point 1 (candidate "x" k) = -1.
Proof.
  destruct (addSuffixIfTaken_first_free ToyHost.point 1 "x")
    as (k & fuel0 & Hrun & Hfree & _).
  - exists (map snd ToyHost.point). intros k. apply ToyHost_member_listed.
  - by exists k, fuel0.
Defined.

Example addSuffixIfTaken_example :
  addSuffixIfTaken 3 ToyHost.point 1 "x" = Ok "x_1_2" /\
  addSuffixIfTaken 2 ToyHost.point 1 "x" = OutOfFuel /\
  addSuffixIfTaken 1 ToyHost.point 1 "z" = Ok "z".
Proof. repeat split; reflexivity. Qed.

(** * More properties of the program *)

(** ** [isValidMemberName] *)

Lemma match_star_dollar_spec s :
  match_star_dollar s = true <->
  forallb isValidMemberName_tail (Py.chars s) = true \/
  exists r, s = r +:+ LF /\ forallb isValidMemberName_tail (Py.chars r) = true.
Proof.
  induction s as [|c s IH].
  - split; [by left | done].
  - change (Py.chars (String c s)) with (c :: Py.chars s). simpl.
    destruct (isValidMemberName_tail c) eqn:Ec; simpl.
    + rewrite IH. split.
      * intros [?|(r & -> & Hr)]; [by left|]. right. exists (String c r).
        split; [done|]. change (Py.chars (String c r)) with (c :: Py.chars r).
        simpl. by rewrite Ec.
      * intros [?|(r & Hs & Hr)]; [by left|]. right.
        destruct r as [|c' r].
        { injection Hs as -> ->. by vm_compute in Ec. }
        injection Hs as <- ->. exists r. split; [done|].
        change (Py.chars (String c r)) with (c :: Py.chars r) in Hr.
        simpl in Hr. by apply andb_true_iff in Hr as [_ ?].
    + split.
      * intros [Hc Hs]%andb_true_iff. right. exists EmptyString.
        destruct s; [|done]. split; [|done].
        apply Z.eqb_eq in Hc. unfold LF. f_equal.
        destruct c as [[] [] [] [] [] [] [] []]; by vm_compute in Hc.
      * intros [?|(r & Hs & Hr)]; [done|].
        destruct r as [|c' r].
        { by injection Hs as -> ->. }
        injection Hs as <- ->.
        change (Py.chars (String c r)) with (c :: Py.chars r) in Hr.
        simpl in Hr. by rewrite Ec in Hr.
Qed.

Lemma isValidMemberName_identifier (name : string) :
  matches_identifier name = true -> isValidMemberName name = true.
Proof.
  destruct name as [|c s]; [done|]. simpl.
  rewrite !andb_true_iff, match_star_dollar_spec.
  intros [? ?]. split; [done|]. by left.
Qed.

(** X1: [isValidMemberName] accepts the strings that match
    [[a-zA-Z_][a-zA-Z0-9_]*] and, because [$] also matches before a final
    line feed, those strings followed by one line feed; it accepts no
    other string. *)
Theorem isValidMemberName_accepts (name : string) :
  isValidMemberName name = true <->
  matches_identifier name = true \/
  exists s, name = s +:+ LF /\ matches_identifier s = true.
Proof.
  destruct name as [|c s].
  - split; [done|]. intros [?|(r & Hr & Hm)]; [done|]. by destruct r.
  - simpl. rewrite !andb_true_iff, match_star_dollar_spec. split.
    + intros [Hc [?|(r & -> & Hr)]]; [by left|]. right.
      exists (String c r). split; [done|]. simpl. by rewrite Hc.
    + intros [[? ?]|(r & Hs & Hm)]; [by split; [|left]|].
      destruct r as [|c' r]; [done|]. injection Hs as <- ->.
      simpl in Hm. apply andb_true_iff in Hm as [? ?]. split; [done|].
      right. by exists r.
Qed.

(** ** [History.cleanHistory] *)

Lemma clean_step_spec history ln :
  clean_step history ln = if decide (ln ∈ history) then history else history ++ [ln].
Proof.
  unfold clean_step. destruct (inb ln history) eqn:E.
  - apply inb_elem in E. rewrite decide_True by done.
    destruct history; [by apply elem_of_nil in E | done].
  - rewrite orb_true_r. rewrite decide_False; [done|].
    intros Hin%inb_elem. congruence.
Qed.

Lemma clean_fold l : forall acc,
  fold_left clean_step l acc =
  acc ++ filter (fun y => y ∉ acc) (fold_left clean_step l []).
Proof.
  induction l as [|x l IH]; intros acc; simpl.
  - by rewrite app_nil_r.
  - rewrite (IH (clean_step acc x)), (IH (clean_step [] x)).
    rewrite !clean_step_spec. rewrite (decide_False (P := x ∈ [])) by apply not_elem_of_nil.
    simpl. rewrite filter_cons. destruct (decide (x ∈ acc)) as [Hin|Hin].
    + rewrite decide_False by tauto. f_equal.
      rewrite list_filter_filter. apply list_filter_iff. intros y. split.
      * intros Hy. split; [done|]. intros ->%list_elem_of_singleton. done.
      * tauto.
    + rewrite decide_True by done. rewrite <- app_assoc. simpl. do 2 f_equal.
      rewrite list_filter_filter. apply list_filter_iff. intros y.
      rewrite not_elem_of_app, list_elem_of_singleton. tauto.
Qed.

Lemma cleanHistory_cons x l :
  cleanHistory (x :: l) = x :: filter (fun y => y ≠ x) (cleanHistory l).
Proof.
  unfold cleanHistory. change (fold_left ?f (x :: l) []) with (fold_left clean_step l (clean_step [] x)).
  rewrite clean_fold. change (clean_step [] x) with [x]. simpl. f_equal.
  apply list_filter_iff. intros y. by rewrite list_elem_of_singleton.
Qed.

Lemma cleanHistory_elem l x : x ∈ cleanHistory l <-> x ∈ l.
Proof.
  induction l as [|y l IH]; [done|].
  rewrite cleanHistory_cons, !elem_of_cons, list_elem_of_filter, IH.
  destruct (decide (x = y)); tauto.
Qed.

Lemma cleanHistory_NoDup l : NoDup (cleanHistory l).
Proof.
  induction l as [|y l IH]; [constructor|].
  rewrite cleanHistory_cons. constructor.
  - rewrite list_elem_of_filter. tauto.
  - by apply NoDup_filter.
Qed.

Lemma cleanHistory_length l : (length (cleanHistory l) <= length l)%nat.
Proof.
  induction l as [|y l IH]; [done|].
  rewrite cleanHistory_cons. simpl.
  pose proof (length_filter (fun z => z ≠ y) (cleanHistory l)). lia.
Qed.

(** X2: [cleanHistory] keeps the first occurrence of every line, in
    order: the result has no line twice, holds exactly the lines of the
    input, is no longer than it, and cleaning [x :: l] gives [x] followed
    by the cleaned [l] without [x]. *)
Theorem cleanHistory_first_occurrences (l : list string) :
  NoDup (cleanHistory l) /\
  (forall x, x ∈ cleanHistory l <-> x ∈ l) /\
  (length (cleanHistory l) <= length l)%nat /\
  (forall x, cleanHistory (x :: l) =
             x :: filter (fun y => y ≠ x) (cleanHistory l)).
Proof.
  split; [apply cleanHistory_NoDup|]. split; [intros x; apply cleanHistory_elem|].
  split; [apply cleanHistory_length|].
  intros x. apply cleanHistory_cons.
Qed.

Lemma filter_all {A} (P : A -> Prop) `{!forall x, Decision (P x)} (l : list A) :
  (forall x, x ∈ l -> P x) -> filter P l = l.
Proof.
  induction l as [|x l IH]; intros Hall; [done|].
  rewrite filter_cons_True by (apply Hall; by left).
  f_equal. apply IH. intros y Hy. apply Hall. by right.
Qed.

Lemma cleanHistory_id l : NoDup l -> cleanHistory l = l.
Proof.
  induction 1 as [|x l Hx Hnd IH]; [done|].
  rewrite cleanHistory_cons, IH. f_equal.
  apply filter_all. intros y Hy ->. done.
Qed.

(** X3: [cleanHistory] changes a history exactly when it has a line
    twice; cleaning a second time changes nothing. *)
Theorem cleanHistory_fixed_point (l : list string) :
  (cleanHistory l = l <-> NoDup l) /\
  cleanHistory (cleanHistory l) = cleanHistory l.
Proof.
  split.
  - split; [intros <-; apply cleanHistory_NoDup | apply cleanHistory_id].
  - apply cleanHistory_id, cleanHistory_NoDup.
Qed.

(** ** [parseOffset] and the formatted offset *)

Lemma rstrip_noop cs s :
  (forall c, c ∈ Py.chars s -> Py.mem c cs = false) -> Py.rstrip cs s = s.
Proof.
  induction s as [|a s IH]; intros Hs; [done|].
  change (Py.chars (String a s)) with (a :: Py.chars s) in Hs.
  rewrite rstrip_cons, IH by (intros c Hc; apply Hs; by right).
  rewrite (Hs a) by (by left). by destruct s.
Qed.


Lemma parseOffset_no_suffix s :
  (forall c, c ∈ Py.chars s -> is_suffix_char c = false) ->
  parseOffset s = Py.int16 s.
Proof.
  intros Hs. unfold parseOffset. simpl.
  rewrite (rstrip_noop "h" s), (rstrip_noop "LL" s), (rstrip_noop "u" s);
    [done|..]; intros c Hc; apply Hs in Hc;
    revert Hc; unfold is_suffix_char, Py.mem; simpl;
    repeat (destruct (Ascii.eqb c _); simpl); done.
Qed.

Lemma hex_digit_no_suffix c :
  is_hex_digit c = true -> is_suffix_char c = false /\ Py.isspace c = false.
Proof. destruct c as [[] [] [] [] [] [] [] []]; by vm_compute. Qed.

Lemma hex_digits_no_suffix l c :
  forallb is_hex_digit l = true -> c ∈ l ->
  is_suffix_char c = false /\ Py.isspace c = false.
Proof.
  intros Hall Hc. apply hex_digit_no_suffix.
  rewrite forallb_forall in Hall. by apply Hall, list_elem_of_In.
Qed.

Lemma read_digits_hex l :
  l <> [] -> forallb is_hex_digit l = true ->
  Py.read_digits l = Some (hex_fold l 0).
Proof.
  intros Hne Hall. destruct l as [|c l]; [done|].
  pose proof Hall as [Hc _]%andb_true_iff.
  destruct (hex_digit_plain c Hc) as (_ & _ & _ & _ & Hus & _).
  unfold Py.read_digits. rewrite Hus, scan_digits_hex by done. done.
Qed.

Lemma skip_prefix_hex l :
  forallb is_hex_digit l = true -> Py.skip_prefix l = l.
Proof.
  destruct l as [|c0 [|c1 l]]; try done. simpl.
  intros [_ [Hc1 _]%andb_true_iff]%andb_true_iff.
  destruct (hex_digit_plain c1 Hc1) as (_ & _ & _ & _ & _ & -> & ->).
  by rewrite andb_false_r.
Qed.

Lemma int16_minus_hex r :
  r <> EmptyString -> forallb is_hex_digit (Py.chars r) = true ->
  Py.int16 (String "-" r) = Some (- hex_number r).
Proof.
  intros Hne Hall. unfold Py.int16, hex_number.
  change (Py.chars (String "-" r)) with ("-"%char :: Py.chars r).
  simpl map. rewrite map_to_ascii_digit_hex by done.
  change (Py.to_ascii_digit "-") with "-"%char.
  change (Py.skip_spaces ("-"%char :: ?l)) with ("-"%char :: l).
  change (Py.read_sign ("-"%char :: ?l)) with (-1, l). cbv beta iota zeta.
  rewrite skip_prefix_hex by done.
  rewrite read_digits_hex; [|by destruct r|done].
  f_equal; try (unfold hex_fold; lia).
Qed.

(** X4: the offset that ["{:X}".format] writes reads back: [parseOffset]
    of the formatted number is the number, negative ones included. *)
Theorem parseOffset_format_X (n : Z) : parseOffset (Py.format_X n) = Some n.
Proof.
  destruct (Z.ltb_spec n 0) as [Hneg|Hpos].
  - rewrite format_X_negative by done.
    destruct (format_X_denotes (- n)) as (Hne & Hup & Hval); [lia|].
    apply upper_hex_is_hex in Hup as Hhex.
    rewrite parseOffset_no_suffix.
    + rewrite int16_minus_hex, Hval by done. f_equal. lia.
    + change (Py.chars (String "-" ?s)) with ("-"%char :: Py.chars s).
      intros c [->|Hc]%elem_of_cons; [done|].
      by apply (hex_digits_no_suffix _ _ Hhex).
  - destruct (format_X_denotes n Hpos) as (Hne & Hup & Hval).
    apply upper_hex_is_hex in Hup as Hhex.
    rewrite parseOffset_no_suffix, int16_format_X; [done..|].
    intros c Hc. by apply (hex_digits_no_suffix _ _ Hhex).
Qed.

Lemma upper_hex_is_tail l :
  forallb is_upper_hex_digit l = true ->
  forallb isValidMemberName_tail l = true.
Proof.
  induction l as [|c l IH]; simpl; [done|].
  intros [Hc Hl]%andb_true_iff. rewrite IH by done.
  rewrite andb_true_r. revert Hc.
  destruct c as [[] [] [] [] [] [] [] []]; by vm_compute.
Qed.

(** X5: the member name that [validateParseInput] makes up for an offset,
    [field_] followed by the offset in hexadecimal, passes
    [isValidMemberName] exactly when the offset is not negative. *)
Theorem default_member_name_valid (off : Z) :
  isValidMemberName ("field_" +:+ Py.format_X off) = (0 <=? off).
Proof.
  destruct (Z.leb_spec 0 off) as [Hpos|Hneg].
  - destruct (format_X_denotes off Hpos) as (_ & Hup & _).
    apply isValidMemberName_identifier.
    change ("field_" +:+ ?s) with (String "f" ("ield_" +:+ s)).
    unfold matches_identifier. rewrite chars_app, forallb_app.
    by rewrite (upper_hex_is_tail _ Hup).
  - by rewrite format_X_negative.
Qed.

(** ** [tryCursorAsOffset] *)

Lemma lstrip_spaces_noop l :
  (forall c, c ∈ l -> Py.isspace c = false) -> Py.lstrip_spaces l = l.
Proof.
  destruct l as [|c l]; [done|]. intros Hl. simpl.
  by rewrite (Hl c) by (by left).
Qed.

Lemma strip_noop s :
  (forall c, c ∈ Py.chars s -> Py.isspace c = false) -> Py.strip s = s.
Proof.
  intros Hs. unfold Py.strip. rewrite (lstrip_spaces_noop _ Hs).
  rewrite lstrip_spaces_noop, rev_involutive; [apply str_chars|].
  intros c Hc%list_elem_of_In%in_rev%list_elem_of_In. by apply Hs.
Qed.

Lemma hex_value_range c d : Py.hex_value c = Some d -> 0 <= d < 16.
Proof.
  destruct c as [[] [] [] [] [] [] [] []]; intros E; vm_compute in E;
    first [discriminate E | injection E as <-; lia].
Qed.

Lemma hex_fold_pos l : forall a,
  forallb is_hex_digit l = true -> 0 < a -> 0 < hex_fold l a.
Proof.
  induction l as [|c l IH]; intros a Hall Ha; [done|].
  simpl in Hall. apply andb_true_iff in Hall as [Hc Hl].
  unfold hex_fold. simpl. apply IH; [done|].
  unfold is_hex_digit in Hc.
  destruct (Py.hex_value c) as [d|] eqn:Ed; [|done].
  apply hex_value_range in Ed. simpl. lia.
Qed.

Lemma lstrip_zeros_hex l :
  forallb is_hex_digit l = true ->
  forallb is_hex_digit (Py.lstrip_chars "0" l) = true /\
  hex_fold (Py.lstrip_chars "0" l) 0 = hex_fold l 0 /\
  (Py.lstrip_chars "0" l = [] <-> hex_fold l 0 = 0).
Proof.
  induction l as [|c l IH]; intros Hall; [done|].
  pose proof Hall as [Hc Hl]%andb_true_iff. simpl.
  destruct (Py.mem c "0") eqn:E.
  - unfold Py.mem in E. simpl in E. rewrite orb_false_r in E.
    apply Ascii.eqb_eq in E as ->. by apply IH.
  - split; [done|]. split; [done|]. split; [done|].
    intros Hz. exfalso.
    change (hex_fold (c :: l) 0)
      with (hex_fold l (0 * 16 + default 0 (Py.hex_value c))) in Hz.
    rewrite Z.mul_0_l, Z.add_0_l in Hz.
    assert (0 < default 0 (Py.hex_value c)) as Hd.
    { revert Hc E. destruct c as [[] [] [] [] [] [] [] []]; by vm_compute. }
    pose proof (hex_fold_pos l _ Hl Hd) as Hpos. lia.
Qed.

Section Cursor.

Context {H tinfo : Type} `{!Host H tinfo}.

(** X6: when the text under the cursor is a string of hexadecimal
    digits, [tryCursorAsOffset] returns it without its leading zeros: the
    empty string when the number is zero, and otherwise a string from
    which [parseOffset] reads the same offset. *)
Theorem tryCursorAsOffset_hex_digits (e : Env H tinfo) :
  let hl := get_cursor_pointed_type (db e) in
  hl <> EmptyString ->
  forallb is_hex_digit (Py.chars hl) = true ->
  parseOffset hl = Some (hex_number hl) /\
  (tryCursorAsOffset e = EmptyString <-> hex_number hl = 0) /\
  (tryCursorAsOffset e <> EmptyString ->
   parseOffset (tryCursorAsOffset e) = Some (hex_number hl)).
Proof.
  intros hl Hne Hall.
  assert (parseOffset hl = Some (hex_number hl)) as Hparse.
  { rewrite parseOffset_no_suffix; [by apply int16_hex_digits|].
    intros c Hc. by apply (hex_digits_no_suffix _ _ Hall). }
  split; [done|].
  destruct (lstrip_zeros_hex _ Hall) as (Hall' & Hval & Hnil).
  assert (tryCursorAsOffset e = Py.str (Py.lstrip_chars "0" (Py.chars hl))) as ->.
  { unfold tryCursorAsOffset, getCursorPointedType. fold hl.
    destruct (String.eqb_spec hl ""); [done|]. cbn [negb]. rewrite Hparse.
    cbv beta iota. unfold Py.lstrip. apply strip_noop. rewrite chars_str.
    intros c Hc. by apply (hex_digits_no_suffix _ _ Hall'). }
  split.
  - unfold hex_number. fold (hex_fold (Py.chars hl) 0). rewrite <- Hnil.
    split; [apply str_nil_inv | by intros ->].
  - intros Hne'. rewrite parseOffset_no_suffix.
    + rewrite int16_hex_digits; [|done|by rewrite chars_str].
      unfold hex_number. rewrite chars_str. f_equal. exact Hval.
    + rewrite chars_str. intros c Hc. by apply (hex_digits_no_suffix _ _ Hall').
Qed.

(** X7: when the text under the cursor is [0x] or [0X] followed by
    hexadecimal digits, [parseOffset] reads it, but [tryCursorAsOffset]
    returns it without the zero of the prefix, and [parseOffset] rejects
    what it returns. *)
Theorem tryCursorAsOffset_prefixed (e : Env H tinfo) (x : ascii) (d : string) :
  get_cursor_pointed_type (db e) = String "0" (String x d) ->
  x = "x"%char \/ x = "X"%char ->
  d <> EmptyString ->
  forallb is_hex_digit (Py.chars d) = true ->
  parseOffset (String "0" (String x d)) = Some (hex_number d) /\
  tryCursorAsOffset e = String x d /\
  parseOffset (tryCursorAsOffset e) = None.
Proof.
  intros Hhl Hx Hne Hall.
  assert (forall c, c ∈ Py.chars (String x d) ->
            is_suffix_char c = false /\ Py.isspace c = false) as Hxd.
  { change (Py.chars (String x d)) with (x :: Py.chars d).
    intros c [->|Hc]%elem_of_cons; [by destruct Hx as [-> | ->]|].
    by apply (hex_digits_no_suffix _ _ Hall). }
  assert (parseOffset (String "0" (String x d)) = Some (hex_number d)) as Hparse.
  { rewrite parseOffset_no_suffix.
    - unfold Py.int16, hex_number.
      change (Py.chars (String "0" (String x d))) with ("0"%char :: x :: Py.chars d).
      simpl map. rewrite map_to_ascii_digit_hex by done.
      destruct (Py.chars d) as [|c2 l] eqn:Ed; [by destruct d|].
      pose proof Hall as [Hc2 _]%andb_true_iff.
      destruct (hex_digit_plain c2 Hc2) as (_ & _ & _ & _ & Hus & _).
      assert (forall l',
                Py.read_sign (Py.skip_spaces
                  (Py.to_ascii_digit "0" :: Py.to_ascii_digit x :: l')) =
                (1, "0"%char :: x :: l')) as -> by (by destruct Hx as [-> | ->]).
      cbv beta iota zeta.
      assert (Py.skip_prefix ("0"%char :: x :: c2 :: l) = c2 :: l) as ->.
      { unfold Py.skip_prefix. rewrite Hus. by destruct Hx as [-> | ->]. }
      rewrite read_digits_hex by done. f_equal; try (unfold hex_fold; lia).
    - change (Py.chars (String "0" ?s)) with ("0"%char :: Py.chars s).
      intros c [->|Hc]%elem_of_cons; [done | by apply Hxd]. }
  split; [done|].
  assert (tryCursorAsOffset e = String x d) as ->.
  { unfold tryCursorAsOffset, getCursorPointedType. rewrite Hhl.
    cbn [String.eqb negb]. rewrite Hparse. cbv beta iota. unfold Py.lstrip.
    change (Py.chars (String "0" (String x d))) with ("0"%char :: x :: Py.chars d).
    assert (Py.lstrip_chars "0" ("0"%char :: x :: Py.chars d) = x :: Py.chars d) as ->
      by (by destruct Hx as [-> | ->]).
    change (Py.str (x :: Py.chars d)) with (String x (Py.str (Py.chars d))).
    rewrite str_chars. apply strip_noop. intros c Hc. by apply Hxd. }
  split; [done|].
  rewrite parseOffset_no_suffix by (intros c Hc; by apply Hxd).
  unfold Py.int16. change (Py.chars (String x d)) with (x :: Py.chars d).
  simpl map. rewrite map_to_ascii_digit_hex by done.
  assert (forall l',
            Py.read_sign (Py.skip_spaces (Py.to_ascii_digit x :: l')) =
            (1, x :: l')) as -> by (by destruct Hx as [-> | ->]).
  cbv beta iota zeta.
  assert (forall l', Py.read_digits (Py.skip_prefix (x :: l')) = None) as ->;
    [|done].
  intros l'. by destruct Hx as [-> | ->], l'.
Qed.

End Cursor.

(** ** More on [validateParseInput] and [inputTextChanged] *)

Section ValidateMore.

Context {H tinfo : Type} `{!Host H tinfo}.

#[local] Arguments parseOffset : simpl never.
#[local] Arguments isValidMemberName : simpl never.
#[local] Arguments isTypeValid : simpl never.
#[local] Arguments getOverlappedMemberNames : simpl never.
#[local] Arguments hint_lines : simpl never.
#[local] Arguments Py.format_X : simpl never.
#[local] Arguments Py.startswith : simpl never.
#[local] Arguments setCompleterWords : simpl never.

Ltac run_red :=
  cbn;
  repeat match goal with
    | |- context [Z.of_nat ?n =? ?k] =>
        let b := eval vm_compute in (Z.of_nat n =? k) in
        change (Z.of_nat n =? k) with b; cbn
    end.

Ltac run_cases :=
  run_red;
  repeat match goal with
    | |- context [?a =? BADADDR] =>
        destruct (a =? BADADDR) eqn:?; run_red
    | |- context [parseOffset ?t] =>
        destruct (parseOffset t) eqn:?; run_red
    | |- context [setCompleterWords ?t ?w] =>
        let m := fresh "m" in
        destruct (setCompleterWords_total t w) as [m ->]; run_red
    | |- context [isTypeValid ?h ?t] =>
        destruct (isTypeValid h t) eqn:?; run_red
    | |- context [isValidMemberName ?t] =>
        destruct (isValidMemberName t) eqn:?; run_red
    | |- context [getOverlappedMemberNames ?h ?a ?b ?c] =>
        destruct (getOverlappedMemberNames h a b c) eqn:?; run_red
    | |- context [idc_get_member_name ?h ?a ?b] =>
        destruct (idc_get_member_name h a b) eqn:?; run_red
    end.

Ltac run_start tokens Hlo Hhi :=
  unfold validateParseInput; cbv zeta;
  cbn [inputField_text set_status set_overlapsMembers];
  fold tokens; clearbody tokens;
  destruct (negb _) eqn:Hlo;
  [ apply negb_true_iff, andb_false_iff in Hlo
  | apply negb_false_iff, andb_true_iff in Hlo as [Hlo%Z.leb_le Hhi%Z.leb_le];
    destruct tokens as [|? [|? [|? [|? [|? tokens]]]]]; simpl length in *;
    try lia ].

(** Uses the equations that [run_cases] left. *)
Ltac run_facts :=
  repeat match goal with
    | E : getOverlappedMemberNames _ _ _ _ = _ |- _ => rewrite !E; clear E
    | E : (_ =? BADADDR) = _ |- _ => rewrite !E; clear E
    | E : idc_get_member_name _ _ _ = _ |- _ => rewrite ?E; clear E
    | E : isTypeValid _ _ = _ |- _ => rewrite ?E; clear E
    end.

(** X8: when a run does not end INVALID, [structName] is the first
    token, [memberOff] the offset read from the second, [memberType] the
    third token and [memberName] the fourth when they are there; the
    status is ALERT_MEMBER when [getOverlappedMemberNames] finds a member
    in the bytes of the new one, else ALERT_STRUCT when the structure
    does not exist, else VALID. *)
Theorem validateParseInput_parsed (e : Env H tinfo) (w : SQWidget) :
  let tokens := Py.split (Py.replace "," "" (inputField_text w)) in
  exists e' w',
    validateParseInput e w = Ok (e', w') /\
    (status w' <> INVALID ->
     exists t0 t1 off,
       tokens !! 0%nat = Some t0 /\ tokens !! 1%nat = Some t1 /\
       parseOffset t1 = Some off /\
       structName w' = t0 /\ memberOff w' = off /\
       (forall t2, tokens !! 2%nat = Some t2 -> memberType w' = t2) /\
       (forall t3, tokens !! 3%nat = Some t3 -> memberName w' = t3) /\
       status w' =
         match getOverlappedMemberNames (db e) t0 off
                 (tinfo_get_size (getType (db e) (memberType w'))) with
         | _ :: _ => ALERT_MEMBER
         | [] =>
             if idc_get_struc_id (db e) t0 =? BADADDR then ALERT_STRUCT
             else VALID
         end).
Proof.
  intros tokens.
  run_start tokens Hlo Hhi; run_cases;
    (do 2 eexists; split; [reflexivity|]); cbn;
    first [ by intros []
          | intros _; do 3 eexists;
            do 5 (split; [first [reflexivity | eassumption]|]);
            split; [by intros ? [= <-]|]; split; [by intros ? [= <-]|];
            by run_facts ].
Qed.

(** X9: a run records the first token as the structure used last
    whenever there are one to four tokens and the token names a
    structure of the database, whatever the status it ends with;
    otherwise it leaves that record alone.  It never changes the
    database, asks the host for no update and prints nothing. *)
Theorem validateParseInput_last_struct (e : Env H tinfo) (w : SQWidget) :
  let tokens := Py.split (Py.replace "," "" (inputField_text w)) in
  exists e' w',
    validateParseInput e w = Ok (e', w') /\
    db e' = db e /\ calls e' = calls e /\ stdout e' = stdout e /\
    LSTRUC_name e' =
      match tokens with
      | t0 :: _ =>
          if (length tokens <=? 4)%nat
             && negb (idc_get_struc_id (db e) t0 =? BADADDR)
          then Some t0 else LSTRUC_name e
      | [] => LSTRUC_name e
      end.
Proof.
  intros tokens.
  run_start tokens Hlo Hhi; run_cases;
    (do 2 eexists; split; [reflexivity|]); cbn; run_facts;
    repeat split.
  destruct tokens as [|t0 tokens]; [done|].
  replace (length (t0 :: tokens) <=? 4)%nat with false; [done|].
  symmetry. apply Nat.leb_gt. cbn [length] in *.
  destruct Hlo as [Hlo%Z.leb_gt|Hlo%Z.leb_gt]; lia.
Qed.

(** X10: when a run ends with ALERT_MEMBER, [overlapsMembers] is set and
    the text of the hint is one line for each pair that
    [getOverlappedMemberNames] returns for the structure, the offset and
    the size of the type that the run assigned, joined by [<br>]; there
    is at least one such pair. *)
Theorem validateParseInput_alert_member (e : Env H tinfo) (w : SQWidget) :
  exists e' w',
    validateParseInput e w = Ok (e', w') /\
    (status w' = ALERT_MEMBER ->
     let overlapped :=
       getOverlappedMemberNames (db e) (structName w') (memberOff w')
         (tinfo_get_size (getType (db e) (memberType w'))) in
     overlapped <> [] /\
     overlapsMembers w' = true /\
     hint_text w' =
       Py.join "<br>" (map (fun var => Styles.HINT var.1 var.2) overlapped)).
Proof.
  set (tokens := Py.split (Py.replace "," "" (inputField_text w))).
  run_start tokens Hlo Hhi; run_cases;
    (do 2 eexists; split; [reflexivity|]); cbn;
    first [ by intros [=] | intros _; by run_facts ].
Qed.

(** X11: when the third token is not a valid type, the run ends INVALID
    and leaves the member type and the text of the hint as they were,
    but it sets [overlapsMembers] when the structure exists and has, at
    the offset, a member whose name does not start with [gap]: the hint
    is then due to be shown with its old text. *)
Theorem validateParseInput_invalid_type (e : Env H tinfo) (w : SQWidget)
    (t0 t1 t2 : string) (rest : list string) (off : Z) :
  Py.split (Py.replace "," "" (inputField_text w)) = t0 :: t1 :: t2 :: rest ->
  (length rest <= 1)%nat ->
  parseOffset t1 = Some off ->
  isTypeValid (db e) t2 = false ->
  exists e' w',
    validateParseInput e w = Ok (e', w') /\
    status w' = INVALID /\
    memberType w' = memberType w /\ hint_text w' = hint_text w /\
    overlapsMembers w' =
      negb (idc_get_struc_id (db e) t0 =? BADADDR)
      && match idc_get_member_name (db e) (idc_get_struc_id (db e) t0) off with
         | Some n => negb (Py.startswith "gap" n)
         | None => false
         end.
Proof.
  intros Htok Hrest Hoff Hty.
  unfold validateParseInput; cbv zeta;
    cbn [inputField_text set_status set_overlapsMembers].
  rewrite Htok. destruct rest as [|t3 [|? ?]]; [| |simpl in Hrest; lia];
    run_red; rewrite Hoff; run_red;
    (destruct (_ =? BADADDR) eqn:E; run_red);
    (match goal with
     | |- context [setCompleterWords ?t ?w] =>
         let m := fresh "m" in
         destruct (setCompleterWords_total t w) as [m ->]; run_red
     end);
    rewrite Hty; run_red; try (destruct (isValidMemberName _); run_red);
    (do 2 eexists; split; [reflexivity|]); by cbn.
Qed.

(** X12: after a change of the text the hint is due to be shown exactly
    when [overlapsMembers] is set, and the style sheet of the input field
    tells the status: it is the style of a status exactly when the run
    ended with that status. *)
Theorem inputTextChanged_hint_and_style (e : Env H tinfo) (w : SQWidget) :
  exists e' w',
    inputTextChanged e w = Ok (e', w') /\
    hint_shown w' = overlapsMembers w' /\
    (forall s : InputStatus,
       inputField_styleSheet w' = style_of s <-> status w' = s).
Proof.
  unfold inputTextChanged.
  destruct (validateParseInput_frame e w)
    as (e' & w' & -> & _ & _ & _ & _ & _ & _ & _ & _ & s & Hs).
  cbn. destruct (overlapsMembers w') eqn:Eo; cbn; rewrite Hs;
    destruct s; cbn; (do 2 eexists; split; [reflexivity|]); cbn;
    (split; [done|]); intros s'; rewrite Hs;
    (split; intros Hst; destruct s'; first [reflexivity | by vm_compute in Hst]).
Qed.

End ValidateMore.

(** ** The offsets that [getOverlappedMemberNames] reports *)

Section OverlapOffsets.

Context {H tinfo : Type} `{!Host H tinfo}.
Variables (h : H) (struc_id off : Z).


Lemma scanned_steps (n : nat) :
  exists names added got,
    fold_left (overlap_step h struc_id off) (map Z.of_nat (seq 0 n))
      ([], [], false) = (names, added, got) /\
    scanned h struc_id off n names added got.
Proof.
  induction n as [|n (names & added & got & Hrun & Hinv)].
  - exists [], [], false. split; [done|].
    split; [done|]. split; [done|]. split; [done|]. split; [|done].
    intros name. split.
    + intros Hin. by apply elem_of_nil in Hin.
    + intros (_ & i & ? & _). lia.
  - rewrite seq_S, map_app, fold_left_app, Hrun. cbn [map fold_left Nat.add].
    destruct Hinv as (Hadded & Hgot & Hlen & Hnames & Hoffs & Hsorted).
    destruct (overlap_step_cases h struc_id off names added got (Z.of_nat n))
      as [[-> Hseen]|(name & Hname & Hkept & Hnew & ->)].
    + exists names, added, got. split; [done|].
      split; [done|]. split; [done|]. split; [lia|]. split; [|split; [|done]].
      * intros name'. rewrite Hnames. split.
        -- intros (? & i & ? & ?). split; [done|]. exists i. split; [lia | done].
        -- intros (Hk & i & Hi & Hn).
           destruct (decide (i = n)) as [->|]; [by apply Hnames, Hseen|].
           split; [done|]. exists i. split; [lia | done].
      * intros k roff name' (i & ? & ?)%Hoffs. exists i. split; [lia | done].
    + assert (forall k roff name',
                (names ++ [(if negb got
                            then idc_get_member_offset h struc_id name
                            else off + Z.of_nat n, name)]) !! S k
                = Some (roff, name') ->
                names !! S k = Some (roff, name') \/
                (S k = length names /\ roff = off + Z.of_nat n /\ name' = name))
        as Hlast.
      { intros k roff name' Hk.
        destruct (decide (S k < length names)%nat) as [Hlt|Hge].
        - left. by rewrite lookup_app_l in Hk.
        - right. rewrite lookup_app_r in Hk by lia.
          destruct (S k - length names)%nat eqn:Ek; [|by destruct n0].
          injection Hk as <- <-.
          assert (got = true) as -> by (destruct names; [simpl in *; lia | done]).
          split; [lia | done]. }
      eexists _, _, _. split; [reflexivity|].
      split; [by rewrite map_app, Hadded|]. split; [by destruct names|].
      split; [rewrite length_app; simpl; lia|]. split; [|split].
      * intros name'. rewrite elem_of_app, list_elem_of_singleton, Hnames. split.
        -- intros [(? & i & ? & ?)| ->].
           ++ split; [done|]. exists i. split; [lia | done].
           ++ split; [done|]. exists n. split; [lia | done].
        -- intros (Hk & i & Hi & Hn).
           destruct (decide (i = n)) as [->|]; [right; congruence|].
           left. split; [done|]. exists i. split; [lia | done].
      * intros k roff name' [Hk|(_ & -> & ->)]%Hlast.
        -- apply Hoffs in Hk as (i & ? & ?). exists i. split; [lia | done].
        -- exists n. split; [lia|]. split; [done|]. split; [done|].
           intros j Hj Hfound. apply Hnew, Hnames. split; [done|]. by exists j.
      * intros k [r1 n1] [r2 n2] H1 H2. simpl.
        apply Hlast in H2 as [H2|(Hk & -> & ->)].
        -- apply (Hsorted k (r1, n1) (r2, n2)); [|done].
           rewrite lookup_app_l in H1; [done|]. apply lookup_lt_Some in H2. lia.
        -- rewrite lookup_app_l in H1 by lia.
           apply Hoffs in H1 as (i & ? & -> & _). lia.
Qed.

End OverlapOffsets.

Section OverlapOrder.

Context {H tinfo : Type} `{!Host H tinfo}.

(** X13: [getOverlappedMemberNames] returns at most one pair for each
    byte of the range and none when the size is not positive.  Every pair
    after the first holds the lowest offset of the range at which its
    name is found, and these offsets grow along the list: the pairs come
    in the order in which the scan meets the names. *)
Theorem getOverlappedMemberNames_offsets (h : H) (struc_name : string)
    (off size : Z) :
  let sid := idc_get_struc_id h struc_name in
  let r := getOverlappedMemberNames h struc_name off size in
  (Z.of_nat (length r) <= Z.max 0 size) /\
  (forall k roff name, r !! S k = Some (roff, name) ->
     exists i, 0 <= i < size /\ roff = off + i /\
       idc_get_member_name h sid (off + i) = Some name /\
       forall j, 0 <= j < i -> idc_get_member_name h sid (off + j) <> Some name) /\
  (forall k p1 p2, r !! S k = Some p1 -> r !! S (S k) = Some p2 -> p1.1 < p2.1).
Proof.
  intros sid r. unfold r, getOverlappedMemberNames, Py.range. fold sid.
  destruct (scanned_steps h sid off (Z.to_nat size))
    as (names & added & got & -> & _ & _ & Hlen & _ & Hoffs & Hsorted).
  simpl. split; [lia|]. split; [|done].
  intros k roff name (i & Hi & -> & Hfound & Hfirst)%Hoffs.
  exists (Z.of_nat i). split; [lia|]. split; [done|]. split; [done|].
  intros j Hj. specialize (Hfirst (Z.to_nat j)).
  rewrite Z2Nat.id in Hfirst by lia. apply Hfirst. lia.
Qed.

End OverlapOrder.

(** ** The history along a session *)


Section Sessions.

Context {H tinfo : Type} `{!Host H tinfo}.

#[local] Arguments eventFilter : simpl never.
#[local] Arguments setText : simpl never.
#[local] Arguments cleanHistory : simpl never.

Lemma setText_keeps (t : string) (e : Env H tinfo) (w : SQWidget) :
  exists e' w',
    setText t e w = Ok (e', w') /\
    inputField_text w' = t /\
    db e' = db e /\ calls e' = calls e /\
    historyLines w' = historyLines w /\ historyIdx w' = historyIdx w /\
    closed w' = closed w /\ history_saved w' = history_saved w.
Proof.
  unfold setText. destruct (String.eqb_spec t (inputField_text w)) as [->|Hne].
  - by exists e, w.
  - destruct (inputTextChanged_frame e (set_inputField_text t w))
      as (e' & w' & Hrun & ? & ? & _ & ? & ? & ? & ? & ? & _).
    exists e', w'. by repeat split.
Qed.

Lemma close_saves (w : SQWidget) :
  closed (close w) = true /\ hint_shown (close w) = false /\
  historyLines (close w) = historyLines w /\
  history_saved (close w) =
    match cleanHistory (historyLines w) with
    | [] => history_saved w
    | l => Some l
    end.
Proof.
  unfold close, saveHistory. cbn.
  destruct (cleanHistory (historyLines w)); by cbn.
Qed.

Lemma eventFilter_arrows (fuel : nat) (e : Env H tinfo) (w : SQWidget)
    (k : Key) (b : bool) (e' : Env H tinfo) (w' : SQWidget) :
  k <> Key_Return ->
  eventFilter fuel e w (KeyPress k) = Ok (b, e', w') ->
  historyLines w' = historyLines w /\ history_saved w' = history_saved w /\
  closed w' = closed w /\ db e' = db e /\ calls e' = calls e.
Proof.
  intros Hk. unfold eventFilter.
  assert (forall idx,
    (or_raise IndexError (Py.getitem (historyLines (set_historyIdx idx w))
                            (historyIdx (set_historyIdx idx w)))
     ≫= (fun t => setText t e (set_historyIdx idx w)
                  ≫= fun '(e0, w0) => Ok (true, e0, w0))) = Ok (b, e', w') ->
    historyLines w' = historyLines w /\ history_saved w' = history_saved w /\
    closed w' = closed w /\ db e' = db e /\ calls e' = calls e) as Harrow.
  { intros idx. destruct (Py.getitem _ _) as [t|]; [|done]. cbn.
    destruct (setText_keeps t e (set_historyIdx idx w))
      as (e2 & w2 & -> & _ & ? & ? & ? & _ & ? & ?).
    cbn. by intros [= <- <- <-]. }
  destruct k; try done; try (by intros [= <- <- <-]);
    (destruct (decide (historyLines w = [])) as [El|El];
     [rewrite El; by intros [= <- <- <-]
     |rewrite match_nonempty by done; apply Harrow]).
Qed.

Lemma quiet_step (fuel : nat) (e : Env H tinfo) (w : SQWidget) (a : UserAction) :
  quiet a -> navigable w ->
  exists e' w',
    perform fuel e w a = Ok (e', w') /\
    historyLines w' = historyLines w /\ history_saved w' = history_saved w /\
    closed w' = closed w /\ db e' = db e /\ calls e' = calls e /\
    navigable w'.
Proof.
  intros Ha Hnav. destruct a as [t|k|]; [| |done]; unfold perform.
  - destruct (setText_keeps t e w) as (e' & w' & -> & _ & ? & ? & Hl & Hi & ? & ?).
    exists e', w'. repeat split; try done; unfold navigable in *;
      rewrite ?Hl, ?Hi; apply Hnav.
  - assert (exists b e' w', eventFilter fuel e w (KeyPress k) = Ok (b, e', w') /\
              navigable w') as (b & e' & w' & Hrun & Hnav').
    { destruct k; try done; try (by exists false, e, w); try (by exists true, e, w).
      - destruct (eventFilter_navigate fuel e w Key_Up Hnav) as (e' & w' & ? & ?);
          [by left|]. exists true, e', w'. tauto.
      - destruct (eventFilter_navigate fuel e w Key_Down Hnav) as (e' & w' & ? & ?);
          [by right|]. exists true, e', w'. tauto. }
    cbn in Ha. destruct (eventFilter_arrows fuel e w k b e' w' Ha Hrun)
      as (? & ? & ? & ? & ?).
    exists e', w'. rewrite Hrun. by cbn.
Qed.

Lemma quiet_session (fuel : nat) (actions : list UserAction) :
  forall (e : Env H tinfo) (w : SQWidget),
  Forall quiet actions -> navigable w -> closed w = false ->
  exists e' w',
    session fuel e w actions = Ok (e', w') /\
    historyLines w' = historyLines w /\ history_saved w' = history_saved w /\
    closed w' = false /\ db e' = db e /\ calls e' = calls e /\
    navigable w'.
Proof.
  induction actions as [|a actions IH]; intros e w Hq Hnav Hopen.
  - by exists e, w.
  - apply Forall_cons in Hq as [Ha Hq]. cbn. rewrite Hopen.
    destruct (quiet_step fuel e w a Ha Hnav)
      as (e1 & w1 & -> & Hl & Hs & Hc & Hd & Hcl & Hnav1).
    cbn. destruct (IH e1 w1 Hq Hnav1) as (e' & w' & -> & ? & ? & ? & ? & ? & ?);
      [congruence|].
    exists e', w'. split; [done|]. do 5 (split; [congruence|]). done.
Qed.

Lemma session_app (fuel : nat) (xs ys : list UserAction) :
  forall (e : Env H tinfo) (w : SQWidget) e1 w1,
  session fuel e w xs = Ok (e1, w1) -> closed w1 = false ->
  session fuel e w (xs ++ ys) = session fuel e1 w1 ys.
Proof.
  induction xs as [|a xs IH]; intros e w e1 w1; cbn.
  - by intros [= <- <-].
  - destruct (closed w) eqn:Ec; [intros [= <- <-]; congruence|].
    destruct (perform fuel e w a) as [[e2 w2]| |]; cbn; [apply IH | done..].
Qed.

Lemma keyPressEvent_escape (e : Env H tinfo) (w : SQWidget)
    (first : string) (older : list string) :
  historyLines w = first :: older ->
  exists e' w',
    keyPressEvent e w true = Ok (e', w') /\
    closed w' = true /\ db e' = db e /\ calls e' = calls e /\
    historyLines w' = older /\
    history_saved w' =
      match cleanHistory older with
      | [] => history_saved w
      | l => Some l
      end.
Proof.
  intros Hlines. unfold keyPressEvent. rewrite Hlines. cbv zeta.
  set (w1 := set_historyLines older w).
  destruct (close_saves w1) as (Hc & _ & Hl & Hs).
  do 2 eexists. split; [reflexivity|]. rewrite Hc, Hl, Hs.
  split; [done|]. split; [by destruct (_ || _)|].
  split; [by destruct (_ || _)|]. done.
Qed.

Lemma init_history (e : Env H tinfo)
    (struct_names type_names stored : list string) (w0 : SQWidget) :
  exists text,
    historyLines (SQWidget_init e struct_names type_names stored w0) =
      text :: take 14 stored /\
    history_saved (SQWidget_init e struct_names type_names stored w0) = None.
Proof.
  unfold SQWidget_init.
  set (w := {| structNames := struct_names; typeNames := _ |}).
  assert (historyLines w = take 14 stored) as Hw by done.
  assert (history_saved w = None) as Hs by done.
  clearbody w. unfold createQLineEdit. cbv zeta.
  match goal with
  | |- context [set_historyLines (inputField_text ?x :: _) _] => set (w1 := x)
  end.
  assert (historyLines w1 = take 14 stored /\ history_saved w1 = None)
    as [Hw1 Hs1] by (unfold w1; by repeat case_match).
  clearbody w1. exists (inputField_text w1).
  cbn [historyLines history_saved set_historyIdx set_historyLines].
  by rewrite Hw1, Hs1.
Qed.

Lemma run_opens (e : Env H tinfo)
    (struct_names type_names stored : list string) (w0 : SQWidget) :
  exists e1 w1 text,
    run e struct_names type_names stored w0 = Ok (e1, w1) /\
    navigable w1 /\ closed w1 = false /\
    db e1 = db e /\ calls e1 = calls e /\
    historyLines w1 = text :: take 14 stored /\
    history_saved w1 = None.
Proof.
  destruct (shown_widget_navigable e struct_names type_names stored w0)
    as (e1 & w1 & Hshow & Hnav & _ & Hopen).
  destruct (inputTextChanged_frame e
              (SQWidget_init e struct_names type_names stored w0))
    as (e1' & w1' & Hshow' & Hdb & Hcalls & _ & Hl & _ & _ & _ & Hsaved & _).
  destruct (init_history e struct_names type_names stored w0)
    as (text & Hinit & Hnone).
  assert (Ok (e1, w1) = Ok (e1', w1')) as [= <- <-]
    by (rewrite <- Hshow, <- Hshow'; reflexivity).
  exists e1, w1, text. split; [exact Hshow|].
  split; [exact Hnav|]. split; [exact Hopen|]. split; [exact Hdb|].
  split; [exact Hcalls|]. split.
  - exact (eq_trans Hl Hinit).
  - exact (eq_trans Hsaved Hnone).
Qed.

(** X14: after the widget is built and shown, whatever the user types
    and whichever of Tab, Up, Down and other keys they press, Escape
    closes the widget without a change to the database and without an
    update asked of the host; the line the widget opened with is dropped,
    and what is saved is the stored history (its first 14 lines) without
    repeated lines, or nothing when that is empty. *)
Theorem escape_discards (fuel : nat) (e : Env H tinfo)
    (struct_names type_names stored : list string) (w0 : SQWidget)
    (actions : list UserAction) :
  Forall quiet actions ->
  exists e1 w1 e' w',
    run e struct_names type_names stored w0 = Ok (e1, w1) /\
    session fuel e1 w1 (actions ++ [PressEscape]) = Ok (e', w') /\
    closed w' = true /\ db e' = db e /\ calls e' = calls e /\
    historyLines w' = take 14 stored /\
    history_saved w' =
      match take 14 stored with
      | [] => None
      | _ => Some (cleanHistory (take 14 stored))
      end.
Proof.
  intros Hq.
  destruct (run_opens e struct_names type_names stored w0)
    as (e1 & w1 & text & Hshow & Hnav & Hopen & Hdb & Hcalls & Hl & Hsaved).
  destruct (quiet_session fuel actions e1 w1 Hq Hnav Hopen)
    as (e2 & w2 & Hrun & Hl2 & Hs2 & Hopen2 & Hdb2 & Hcalls2 & _).
  destruct (keyPressEvent_escape e2 w2 text (take 14 stored))
    as (e' & w' & Hesc & Hc & Hdb3 & Hcalls3 & Hl3 & Hs3); [congruence|].
  exists e1, w1, e', w'. split; [exact Hshow|]. split.
  { rewrite (session_app fuel actions [PressEscape] e1 w1 e2 w2 Hrun Hopen2).
    cbn [session perform]. rewrite Hopen2, Hesc. cbn [mbind outcome_bind].
    by destruct (closed w'). }
  split; [done|]. split; [congruence|]. split; [congruence|]. split; [done|].
  rewrite Hs3, Hs2, Hsaved.
  destruct (take 14 stored) as [|x l] eqn:Et; [done|].
  by rewrite cleanHistory_cons.
Qed.

(** X15: on a host whose structures have finitely many members, Return
    on a status other than INVALID saves the history with the committed
    line first, followed by the older lines without repeated lines and
    without the committed line. *)
Theorem return_saves_history (e : Env H tinfo) (w : SQWidget)
    (first : string) (older : list string) :
  host_finite ->
  status w <> INVALID ->
  historyLines w = first :: older ->
  exists fuel0, forall fuel, (fuel0 <= fuel)%nat ->
    exists e' w',
      eventFilter fuel e w (KeyPress Key_Return) = Ok (true, e', w') /\
      historyLines w' = inputField_text w :: older /\
      history_saved w' =
        Some (inputField_text w ::
              filter (fun ln => ln ≠ inputField_text w) (cleanHistory older)).
Proof.
  intros Hfin Hst Hlines.
  destruct (addStrucMember_returns e w Hfin) as (fuel0 & Hcommit).
  exists fuel0. intros fuel Hfuel.
  destruct (Hcommit fuel Hfuel) as (e' & cs & Hrun & _).
  unfold eventFilter.
  destruct (Z.eqb_spec (status w) INVALID) as [|_]; [done|]. cbn [negb].
  rewrite Hrun, Hlines.
  change (Py.setitem (first :: older) 0 (inputField_text w))
    with (Some (inputField_text w :: older)).
  cbn [mbind outcome_bind or_raise].
  set (w1 := set_historyLines (inputField_text w :: older) w).
  destruct (close_saves w1) as (_ & _ & Hl & Hs).
  do 2 eexists. split; [reflexivity|]. rewrite Hl, Hs. cbn.
  by rewrite cleanHistory_cons.
Qed.

Lemma perform_bounded (fuel : nat) (e : Env H tinfo) (w : SQWidget)
    (a : UserAction) (e' : Env H tinfo) (w' : SQWidget) :
  history_bounded w -> perform fuel e w a = Ok (e', w') -> history_bounded w'.
Proof.
  intros [Hlen Hsaved].
  assert (forall lines w1,
            Z.of_nat (length lines) <= HIST_LEN ->
            history_saved w1 = history_saved w ->
            history_bounded (close (set_historyLines lines w1))) as Hclose.
  { intros lines w1 Hl Hs. split.
    - destruct (close_saves (set_historyLines lines w1)) as (_ & _ & -> & _).
      done.
    - destruct (close_saves (set_historyLines lines w1)) as (_ & _ & _ & ->).
      cbn [historyLines history_saved set_historyLines]. rewrite Hs.
      pose proof (cleanHistory_NoDup lines).
      pose proof (cleanHistory_length lines).
      destruct (cleanHistory lines) eqn:Ec; [apply Hsaved|].
      intros l' [= <-]. split; [done|]. split; [done|]. lia. }
  destruct a as [t|k|]; unfold perform.
  - destruct (setText_keeps t e w) as (e2 & w2 & -> & _ & _ & _ & Hl & _ & _ & Hs).
    intros [= <- <-]. unfold history_bounded. by rewrite Hl, Hs.
  - assert (k = Key_Return \/ k <> Key_Return) as [->|Hk]
      by (destruct k; auto; by right).
    + unfold eventFilter. destruct (negb _); [|by intros [= <- <-]].
      destruct (addStrucMember fuel e w) as [e2| |]; [|done..]. cbn.
      destruct (historyLines w) as [|x lines] eqn:El; [done|]. cbn.
      intros [= <- <-]. apply Hclose; [|done].
      cbn in *. lia.
    + destruct (eventFilter fuel e w (KeyPress k)) as [[[b e2] w2]| |] eqn:Er;
        [|done..].
      destruct (eventFilter_arrows fuel e w k b e2 w2 Hk Er) as (Hl & Hs & _).
      cbn. intros [= <- <-]. unfold history_bounded. by rewrite Hl, Hs.
  - unfold keyPressEvent. destruct (historyLines w) as [|x lines] eqn:El; [done|].
    intros [= <- <-]. apply Hclose; [|done].
    cbn in *. lia.
Qed.

Lemma session_bounded (fuel : nat) (actions : list UserAction) :
  forall (e : Env H tinfo) (w : SQWidget) e' w',
  history_bounded w -> session fuel e w actions = Ok (e', w') ->
  history_bounded w'.
Proof.
  induction actions as [|a actions IH]; intros e w e' w' Hb; cbn.
  - by intros [= <- <-].
  - destruct (closed w); [by intros [= <- <-]|].
    destruct (perform fuel e w a) as [[e1 w1]| |] eqn:Ep; [|done..]. cbn.
    apply IH. by eapply perform_bounded.
Qed.

(** X16: from the moment the widget is shown and through every session
    of edits and key presses, the history list of the widget has at most
    [HIST_LEN] (15) lines, and every history that is saved has between 1
    and 15 lines, none of them twice. *)
Theorem history_stays_bounded (e : Env H tinfo)
    (struct_names type_names stored : list string) (w0 : SQWidget) :
  exists e1 w1,
    run e struct_names type_names stored w0 = Ok (e1, w1) /\
    forall fuel actions e' w',
      session fuel e1 w1 actions = Ok (e', w') ->
      Z.of_nat (length (historyLines w')) <= HIST_LEN /\
      forall l, history_saved w' = Some l ->
        NoDup l /\ l <> [] /\ Z.of_nat (length l) <= HIST_LEN.
Proof.
  destruct (run_opens e struct_names type_names stored w0)
    as (e1 & w1 & text & Hshow & _ & _ & _ & _ & Hl & Hsaved).
  exists e1, w1. split; [exact Hshow|]. intros fuel actions e' w' Hrun.
  apply (session_bounded fuel actions e1 w1 e' w'); [|done].
  unfold history_bounded. rewrite Hl, Hsaved. split; [|done].
  cbn [length]. rewrite length_take. unfold HIST_LEN. lia.
Qed.

Lemma app_string_nil_r (s : string) : s +:+ EmptyString = s.
Proof. induction s as [|a s IH]; [done|]. by rewrite app_cons_string, IH. Qed.

Lemma app_string_assoc (s1 s2 s3 : string) :
  (s1 +:+ s2) +:+ s3 = s1 +:+ (s2 +:+ s3).
Proof.
  induction s1 as [|a s1 IH]; [by rewrite !app_nil_string|].
  by rewrite !app_cons_string, IH.
Qed.

Lemma addStrucMember_last (fuel : nat) (e e' : Env H tinfo) (w : SQWidget) :
  _addStrucMember fuel e w = Ok e' ->
  LSTRUC_name e' = Some (structName w) /\
  exists line, stdout e' = stdout e ++ [line].
Proof.
  unfold _addStrucMember. cbv zeta. cbn [db set_LSTRUC_name].
  destruct (_ =? BADADDR).
  - destruct (idc_add_struc _ _ _ _) as [sid h1]. cbn [db host_call].
    destruct (addSuffixIfTaken fuel h1 sid (memberName w)) as [n| |];
      [|done..].
    cbn [mbind outcome_bind]. intros [= <-].
    destruct (_ <? _); cbn; eauto.
  - match goal with
    | |- context [fold_left (del_members ?sid ?off) ?offs ?e0] =>
        pose proof (fold_del_members sid off offs e0) as Hfold;
        cbv zeta in Hfold; destruct Hfold as (_ & _ & Hlast & Hout);
        set (e1 := fold_left (del_members sid off) offs e0) in *
    end.
    destruct (addSuffixIfTaken fuel (db e1) _ (memberName w)) as [n| |];
      [|done..].
    cbn [mbind outcome_bind]. intros [= <-].
    destruct (_ <? _); cbn; rewrite Hlast, Hout; cbn; eauto.
Qed.

(** X17: a commit records its structure as the one used last, so that
    the next widget, when the cursor is on no structure, opens on the
    name of that structure and a blank, followed by the offset under the
    cursor and a blank when there is one; this text is entry 0 of its
    history. *)
Theorem commit_then_reopen (fuel : nat) (e e' : Env H tinfo) (w w2 : SQWidget) :
  _addStrucMember fuel e w = Ok e' ->
  structName w <> EmptyString ->
  tryCursorAsStruct e' = EmptyString ->
  let text :=
    structName w +:+ " " +:+
    match tryCursorAsOffset e' with
    | EmptyString => EmptyString
    | mem_off => mem_off +:+ " "
    end in
  inputField_text (createQLineEdit e' w2) = text /\
  historyLines (createQLineEdit e' w2) = text :: historyLines w2.
Proof.
  intros Hrun Hname Hcursor text.
  destruct (addStrucMember_last fuel e e' w Hrun) as (Hlast & _).
  unfold createQLineEdit. cbv zeta. rewrite Hcursor, Hlast. subst text.
  destruct (structName w) as [|c s] eqn:Es; [done|].
  destruct (tryCursorAsOffset e') as [|d off]; cbn [inputField_text historyLines
    set_inputField_text set_completer_model set_historyLines].
  - rewrite app_string_nil_r. done.
  - rewrite app_string_assoc. done.
Qed.

End Sessions.

(** ** Completion words and the structure used last *)

Lemma prefix_app (a p s : string) :
  String.prefix p s = true -> String.prefix (a +:+ p) (a +:+ s) = true.
Proof.
  intros Hp. induction a as [|c a IH]; [by rewrite !app_nil_string|].
  rewrite !app_cons_string. cbn [String.prefix].
  by destruct (ascii_dec c c).
Qed.

Lemma prefix_spec (p s : string) :
  String.prefix p s = true <-> exists post, s = p +:+ post.
Proof.
  revert s. induction p as [|c p IH]; intros s.
  - split; [intros _; exists s; by rewrite app_nil_string|].
    by destruct s.
  - destruct s as [|d s]; cbn [String.prefix].
    + split; [done|]. intros [post Hpost]. by rewrite app_cons_string in Hpost.
    + destruct (ascii_dec c d) as [->|Hne].
      * rewrite IH. split; intros [post Hpost]; exists post.
        -- by rewrite app_cons_string, Hpost.
        -- rewrite app_cons_string in Hpost. by injection Hpost.
      * split; [done|]. intros [post Hpost].
        rewrite app_cons_string in Hpost. congruence.
Qed.

Lemma str_contains_spec (sub s : string) :
  str_contains sub s = true <-> exists pre post, s = pre +:+ sub +:+ post.
Proof.
  induction s as [|d s IH]; cbn [str_contains].
  - rewrite orb_false_r, prefix_spec. split.
    + intros [post Hpost]. exists EmptyString, post. by rewrite app_nil_string.
    + intros (pre & post & Hs). destruct pre as [|c pre];
        [|by rewrite app_cons_string in Hs].
      exists post. by rewrite app_nil_string in Hs.
  - rewrite orb_true_iff, prefix_spec, IH. split.
    + intros [[post Hpost]|(pre & post & Hs)].
      * exists EmptyString, post. by rewrite app_nil_string.
      * exists (String d pre), post. by rewrite app_cons_string, Hs.
    + intros (pre & post & Hs). destruct pre as [|c pre].
      * left. exists post. by rewrite app_nil_string in Hs.
      * right. rewrite app_cons_string in Hs. injection Hs as _ Hs.
        by exists pre, post.
Qed.

Section Completion.

Context {H tinfo : Type} `{!Host H tinfo}.

(** X18: with three tokens [setCompleterWords] returns, and the words it
    offers are, in the order of [typeNames], one word for each type name
    that starts with the third token: the first two tokens and the type
    name, each followed by one blank but the last.  Every word offered
    starts with the three tokens joined by single blanks. *)
Theorem setCompleterWords_types (w : SQWidget) (t0 t1 t2 : string) :
  exists w',
    setCompleterWords [t0; t1; t2] w = Ok w' /\
    completer_model w' =
      map (fun cand => t0 +:+ " " +:+ t1 +:+ " " +:+ cand)
          (filter (fun cand => Py.startswith t2 cand = true) (typeNames w)) /\
    Forall (fun word => Py.startswith (Py.join " " [t0; t1; t2]) word = true)
           (completer_model w').
Proof.
  unfold setCompleterWords, getTypeCompletion.
  change (Z.of_nat (length [t0; t1; t2]) =? 2) with false.
  change (Z.of_nat (length [t0; t1; t2]) =? 3) with true. cbv iota.
  assert (forall l : list string,
            filter (fun type_name => Is_true (Py.startswith t2 type_name)) l =
            filter (fun cand => Py.startswith t2 cand = true) l) as Hfilter.
  { intros l. apply list_filter_iff. intros x.
    by rewrite Is_true_true. }
  assert (forall cand : string,
            (Py.join " " (take 2 [t0; t1; t2]) +:+ " ") +:+ cand =
            t0 +:+ " " +:+ t1 +:+ " " +:+ cand) as Hword.
  { intros cand. cbn [take Py.join].
    by rewrite !app_string_assoc. }
  assert (exists words,
            (match typeNames w with
             | [] => Ok []
             | _ :: _ =>
                 or_raise IndexError ([t0; t1; t2] !! 2%nat) ≫= fun t =>
                 Ok (filter (fun type_name => Is_true (Py.startswith t type_name))
                            (typeNames w))
             end) = Ok words /\
            words = filter (fun cand => Py.startswith t2 cand = true)
                           (typeNames w)) as (words & -> & ->).
  { destruct (typeNames w) as [|x l] eqn:El; [by exists []|].
    eexists. split; [reflexivity|]. apply Hfilter. }
  cbn [mbind outcome_bind]. eexists. split; [reflexivity|].
  cbn [completer_model set_completer_model].
  split; [apply map_ext; intros cand; apply Hword|].
  apply Forall_forall. intros word [cand [-> Hcand]]%list_elem_of_fmap.
  apply list_elem_of_filter in Hcand as [Hpre _].
  rewrite Hword. cbn [Py.join]. unfold Py.startswith in *.
  rewrite <- !app_string_assoc. by apply prefix_app.
Qed.

(** X19: Escape takes the first line off the history and closes the
    widget.  Afterwards a structure is still recorded as the one used
    last exactly when it was recorded before, the input field is not
    empty and the name is a part of its text. *)
Theorem escape_last_struct (e : Env H tinfo) (w : SQWidget)
    (first : string) (older : list string) :
  historyLines w = first :: older ->
  exists e' w',
    keyPressEvent e w true = Ok (e', w') /\
    historyLines w' = older /\ closed w' = true /\
    forall name,
      LSTRUC_name e' = Some name <->
      LSTRUC_name e = Some name /\ inputField_text w <> EmptyString /\
      exists pre post, inputField_text w = pre +:+ name +:+ post.
Proof.
  intros Hlines. unfold keyPressEvent. rewrite Hlines. cbv zeta.
  destruct (close_saves (set_historyLines older w)) as (Hc & _ & Hl & _).
  do 2 eexists. split; [reflexivity|].
  split; [exact Hl|]. split; [exact Hc|]. intros name.
  cbn [inputField_text set_historyLines].
  destruct (String.eqb_spec (inputField_text w) "") as [Et|Et];
    cbn [orb negb andb].
  { cbn. split; [done|]. tauto. }
  destruct (LSTRUC_name e) as [last|] eqn:El; [|cbn; rewrite El; split; [done|tauto]].
  destruct (String.eqb_spec last "") as [->|En]; cbn [negb andb].
  { rewrite El. split; [|tauto]. intros [= <-]. split; [done|]. split; [done|].
    exists EmptyString, (inputField_text w). by rewrite !app_nil_string. }
  destruct (str_contains last (inputField_text w)) eqn:Ec; cbn [negb].
  - rewrite El. split; [|tauto]. intros [= <-]. split; [done|]. split; [done|].
    by apply str_contains_spec.
  - cbn. split; [done|]. intros ([= <-] & _ & Hin).
    apply str_contains_spec in Hin. congruence.
Qed.

End Completion.

(** ** The line printed by a commit *)

Section CommitLog.

Context {H tinfo : Type} `{!Host H tinfo}.

(** X20: a commit prints one line, after the updates of the host:
    [Added], the type as the database spells it once the member is in,
    the name of the member, [@ 0x] with the offset in upper-case
    hexadecimal, [for] and the structure.  The name printed is the name
    that [addSuffixIfTaken] returned, which is the name given to
    [add_udm] and not always the name typed. *)
Theorem commit_prints_added_member (fuel : nat) (e : Env H tinfo)
    (w : SQWidget) :
  let sid0 := idc_get_struc_id (db e) (structName w) in
  let size := tinfo_get_size (getType (db e) (memberType w)) in
  let '(sid, h1) :=
    if sid0 =? BADADDR then
      ((idc_add_struc (db e) (-1) (structName w) 0).1,
       (idc_add_struc (db e) (-1) (structName w) 0).2)
    else
      (sid0,
       fold_left (fun h i => idc_del_struc_member h sid0 (memberOff w + i))
                 (Py.range size) (db e)) in
  forall mem_name,
    addSuffixIfTaken fuel h1 sid (memberName w) = Ok mem_name ->
    exists e',
      _addStrucMember fuel e w = Ok e' /\
      stdout e' =
        stdout e ++
        ["Added " +:+ tinfo_str (getType (db e') (memberType w)) +:+ " "
         +:+ mem_name +:+ " @ 0x" +:+ Py.format_X (memberOff w)
         +:+ " for " +:+ structName w] /\
      exists tif mem_type bit_offset,
        Call_add_udm tif mem_name mem_type bit_offset ∈ calls e'.
Proof.
  intros sid0 size. unfold _addStrucMember. cbn [db set_LSTRUC_name].
  fold sid0. destruct (sid0 =? BADADDR).
  - destruct (idc_add_struc (db e) (-1) (structName w) 0) as [sid h1] eqn:E.
    cbn. intros mem_name ->. cbn.
    destruct (_ <? _); cbn; eexists; (split; [reflexivity|]); cbn;
      (split; [reflexivity|]); do 3 eexists;
      rewrite !elem_of_app, !list_elem_of_singleton; eauto.
  - fold size.
    pose proof (fold_del_members sid0 (memberOff w) (Py.range size)
                  (set_LSTRUC_name (Some (structName w)) e)) as Hdel.
    cbv zeta in Hdel. destruct Hdel as (Hdb & _ & _ & Hout).
    cbn [db stdout set_LSTRUC_name] in Hdb, Hout.
    rewrite <- Hdb.
    set (e1 := fold_left _ _ (set_LSTRUC_name _ e)) in *. clearbody e1.
    intros mem_name ->. cbn.
    destruct (_ <? _); cbn; eexists; (split; [reflexivity|]); cbn;
      rewrite Hout; (split; [reflexivity|]); do 3 eexists;
      rewrite !elem_of_app, !list_elem_of_singleton; eauto.
Qed.

End CommitLog.

Lemma commit_prints_added_member_witness :
  addSuffixIfTaken 5 ToyHost.point 1 "x" = Ok "x_1_2" /\
  exists e',
    _addStrucMember 5 ToyHost.env0 ToyHost.far = Ok e' /\
    stdout e' = ["Added int x_1_2 @ 0x10 for Point"].
Proof.
  split; [reflexivity|].
  pose proof (commit_prints_added_member 5 ToyHost.env0 ToyHost.far) as Hlog.
  vm_compute in Hlog.
  destruct (Hlog "x_1_2" eq_refl) as (e' & Hrun & Hout & _).
  exists e'. split; [exact Hrun | exact Hout].
Defined.

(** ** The further theorems at concrete inputs *)

Lemma tryCursorAsOffset_hex_digits_witness :
  parseOffset "001F" = Some 31 /\
  parseOffset (@tryCursorAsOffset _ _ (CursorHost.host "001F") ToyHost.env0)
    = Some 31.
Proof.
  destruct (@tryCursorAsOffset_hex_digits _ _ (CursorHost.host "001F")
              ToyHost.env0) as (Hparse & _ & Hoff);
    [discriminate | reflexivity |].
  split; [exact Hparse|]. apply Hoff. vm_compute. discriminate.
Defined.

Lemma tryCursorAsOffset_prefixed_witness :
  parseOffset "0x1F" = Some 31 /\
  @tryCursorAsOffset _ _ (CursorHost.host "0x1F") ToyHost.env0 = "x1F" /\
  parseOffset (@tryCursorAsOffset _ _ (CursorHost.host "0x1F") ToyHost.env0)
    = None.
Proof.
  apply (@tryCursorAsOffset_prefixed _ _ (CursorHost.host "0x1F")
           ToyHost.env0 "x"%char "1F");
    [reflexivity | by left | discriminate | reflexivity].
Defined.

Lemma validateParseInput_parsed_witness :
  exists e' w',
    validateParseInput ToyHost.env0 (ToyHost.typed "Point 6 int") = Ok (e', w') /\
    structName w' = "Point" /\ memberOff w' = 6 /\
    status w' = ALERT_MEMBER.
Proof.
  destruct (validateParseInput_parsed ToyHost.env0 (ToyHost.typed "Point 6 int"))
    as (e' & w' & Hrun & Hparsed).
  exists e', w'. split; [exact Hrun|].
  destruct Hparsed as (t0 & t1 & off & Ht0 & Ht1 & Hoff & Hs & Hm & Hty & _ & Hst).
  { vm_compute in Hrun. injection Hrun as _ <-. vm_compute. discriminate. }
  vm_compute in Ht0. injection Ht0 as <-.
  vm_compute in Ht1. injection Ht1 as <-.
  vm_compute in Hoff. injection Hoff as <-.
  split; [exact Hs|]. split; [exact Hm|].
  rewrite Hst, (Hty "int" eq_refl). reflexivity.
Defined.

Lemma validateParseInput_alert_member_witness :
  exists e' w',
    validateParseInput ToyHost.env0 (ToyHost.typed "Point 0 Point") = Ok (e', w') /\
    overlapsMembers w' = true /\
    hint_text w' =
      Py.join "<br>" [Styles.HINT 0 "x"; Styles.HINT 4 "y"; Styles.HINT 6 "x_1"].
Proof.
  destruct (validateParseInput_alert_member ToyHost.env0
              (ToyHost.typed "Point 0 Point"))
    as (e' & w' & Hrun & Halert).
  exists e', w'. split; [exact Hrun|].
  destruct Halert as (_ & Hover & Hhint).
  { vm_compute in Hrun. injection Hrun as _ <-. reflexivity. }
  split; [exact Hover|]. rewrite Hhint.
  vm_compute in Hrun. injection Hrun as _ <-. reflexivity.
Defined.

Lemma validateParseInput_invalid_type_witness :
  exists e' w',
    validateParseInput ToyHost.env0 (ToyHost.typed "Point 4 float") = Ok (e', w') /\
    status w' = INVALID /\ overlapsMembers w' = true.
Proof.
  destruct (validateParseInput_invalid_type ToyHost.env0
              (ToyHost.typed "Point 4 float") "Point" "4" "float" [] 4)
    as (e' & w' & Hrun & Hst & _ & _ & Hover);
    [reflexivity | simpl; lia | reflexivity | reflexivity |].
  exists e', w'. split; [exact Hrun|]. split; [exact Hst | exact Hover].
Defined.

Lemma getOverlappedMemberNames_offsets_witness :
  getOverlappedMemberNames ToyHost.point "Point" 0 8
    = [(0, "x"); (4, "y"); (6, "x_1")] /\
  exists i, 0 <= i < 8 /\ 6 = 0 + i /\
    idc_get_member_name ToyHost.point 1 (0 + i) = Some "x_1".
Proof.
  split; [reflexivity|].
  destruct (getOverlappedMemberNames_offsets ToyHost.point "Point" 0 8)
    as (_ & Hlow & _).
  destruct (Hlow 1%nat 6 "x_1" eq_refl) as (i & Hi & Hr & Hn & _).
  exists i. split; [exact Hi|]. split; [exact Hr | exact Hn].
Defined.

Lemma escape_discards_witness :
  exists e1 w1 e' w',
    run ToyHost.env0 ["Point"] ["int"; "_BYTE"]
        ["Point 4 int y"; "Point 0 int x"; "Point 4 int y"] ToyHost.blank
      = Ok (e1, w1) /\
    session 0 e1 w1 [Edit "Point 4"; Press Key_Up; Press Key_Tab; PressEscape]
      = Ok (e', w') /\
    closed w' = true /\ calls e' = [] /\
    history_saved w' = Some ["Point 4 int y"; "Point 0 int x"].
Proof.
  destruct (escape_discards 0 ToyHost.env0 ["Point"] ["int"; "_BYTE"]
              ["Point 4 int y"; "Point 0 int x"; "Point 4 int y"] ToyHost.blank
              [Edit "Point 4"; Press Key_Up; Press Key_Tab])
    as (e1 & w1 & e' & w' & Hrun & Hses & Hc & _ & Hcalls & _ & Hsaved).
  { apply List.Forall_cons; [exact I|].
    apply List.Forall_cons; [discriminate|].
    apply List.Forall_cons; [discriminate|]. apply List.Forall_nil. }
  exists e1, w1, e', w'. split; [exact Hrun|]. split; [exact Hses|].
  split; [exact Hc|]. split; [exact Hcalls | exact Hsaved].
Defined.

Lemma return_saves_history_witness :
  host_finite (H := ToyHost.H) /\
  exists fuel0, forall fuel, (fuel0 <= fuel)%nat ->
    exists e' w',
      eventFilter fuel ToyHost.env0 ToyHost.far (KeyPress Key_Return)
        = Ok (true, e', w') /\
      history_saved w' =
        Some ["Point 10 int x"; "Point 4 int y"; "Point 0 int x"].
Proof.
  split; [exact ToyHost_finite|].
  destruct (return_saves_history ToyHost.env0 ToyHost.far ""
              ["Point 4 int y"; "Point 0 int x"] ToyHost_finite)
    as (fuel0 & Hrun); [discriminate | reflexivity |].
  exists fuel0. intros fuel Hfuel.
  destruct (Hrun fuel Hfuel) as (e' & w' & He' & _ & Hsaved).
  exists e', w'. split; [exact He' | exact Hsaved].
Defined.

Lemma history_stays_bounded_witness :
  exists e1 w1 e' w',
    run ToyHost.env0 ["Point"] ["int"; "_BYTE"]
        ["Point 4 int y"; "Point 0 int x"] ToyHost.blank = Ok (e1, w1) /\
    session 5 e1 w1 [Edit "Point 10 int x"; Press Key_Return] = Ok (e', w') /\
    Z.of_nat (length (historyLines w')) <= 15.
Proof.
  destruct (history_stays_bounded ToyHost.env0 ["Point"] ["int"; "_BYTE"]
              ["Point 4 int y"; "Point 0 int x"] ToyHost.blank)
    as (e1 & w1 & Hrun & Hall).
  assert (exists e' w',
            session 5 e1 w1 [Edit "Point 10 int x"; Press Key_Return]
              = Ok (e', w')) as (e' & w' & Hses).
  { vm_compute in Hrun. injection Hrun as <- <-.
    do 2 eexists. vm_compute. reflexivity. }
  exists e1, w1, e', w'. split; [exact Hrun|]. split; [exact Hses|].
  exact (proj1 (Hall 5%nat _ e' w' Hses)).
Defined.

Lemma commit_then_reopen_witness :
  exists e',
    _addStrucMember 5 ToyHost.env0 ToyHost.far = Ok e' /\
    inputField_text (createQLineEdit e' ToyHost.blank) = "Point " /\
    historyLines (createQLineEdit e' ToyHost.blank) = ["Point "].
Proof.
  assert (exists e', _addStrucMember 5 ToyHost.env0 ToyHost.far = Ok e')
    as (e' & Hrun) by (eexists; vm_compute; reflexivity).
  exists e'. split; [exact Hrun|].
  apply (commit_then_reopen 5 ToyHost.env0 e' ToyHost.far ToyHost.blank Hrun);
    [discriminate | reflexivity].
Defined.

Lemma escape_last_struct_witness :
  exists e' w',
    keyPressEvent (set_LSTRUC_name (Some "Point") ToyHost.env0)
      (ToyHost.typed "Point 4") true = Ok (e', w') /\
    historyLines w' = ["Point 4 int y"; "Point 0 int x"] /\
    LSTRUC_name e' = Some "Point".
Proof.
  destruct (escape_last_struct (set_LSTRUC_name (Some "Point") ToyHost.env0)
              (ToyHost.typed "Point 4") ""
              ["Point 4 int y"; "Point 0 int x"] eq_refl)
    as (e' & w' & Hrun & Hl & _ & Hlast).
  exists e', w'. split; [exact Hrun|]. split; [exact Hl|].
  apply Hlast. split; [reflexivity|]. split; [discriminate|].
  by exists EmptyString, " 4".
Defined.
